(** * Grounding with Bing Search: the agent client and its request models

    A shallow embedding of [grounding/bing/bing_search.py]: the class
    [GroundingWithBingSearch] (agent and thread creation, the run poll
    loop of [search], teardown, bulk deletion) and the pydantic models
    that make the body of the agent-creation request.

    The client talks to a remote service.  A run of a method is modelled
    against a scenario: the list of replies the service gives, in the
    order the client waits for them.  Every request and every sleep is
    appended to a trace, so that calls can be counted and ordered.
    Console output ([print], the timing decorator) is not modelled. *)

From Stdlib Require Import String Ascii List ZArith Lia Bool.
Import ListNotations.
Open Scope string_scope.
Open Scope list_scope.

(** ** Python values, f-strings and exceptions *)

Module Py.

(** The values the client handles are decoded JSON documents: [JNull] is
    [None], [JArr] a list, [JObj] a dict given by its items (a key occurs
    once; lookup takes the first).  Numbers are integers. *)
#[warnings="-register-all"]
Inductive json : Type :=
| JNull
| JBool (b : bool)
| JNum (n : Z)
| JStr (s : string)
| JArr (elems : list json)
| JObj (items : list (string * json)).

(** An f-string is kept as its parts, literal text and interpolated
    values; [str()] of an interpolated value is not expanded. *)
Inductive fpart : Type :=
| Lit (s : string)
| Val (v : json).

Definition fstring := list fpart.

Inductive exn : Type :=
| Exception (msg : fstring)
| KeyError (key : string)
| TypeError
| IndexError
| ClientError (what : string)   (* raised by the HTTP library: no response *)
| ContentTypeError.             (* raised by [response.json()]: body is not JSON *)

Fixpoint lookup (k : string) (items : list (string * json)) : option json :=
  match items with
  | [] => None
  | (k', v) :: rest => if String.eqb k k' then Some v else lookup k rest
  end.

(** [v[k]] for a string key [k]. *)
Definition subscript (v : json) (k : string) : exn + json :=
  match v with
  | JObj items =>
      match lookup k items with
      | Some x => inr x
      | None => inl (KeyError k)
      end
  | _ => inl TypeError
  end.

(** [v == s] for a string literal [s]. *)
Definition eq_str (v : json) (s : string) : bool :=
  match v with
  | JStr s' => String.eqb s' s
  | _ => false
  end.

(** [v in [s1, s2, ...]] for string literals. *)
Definition in_strs (v : json) (l : list string) : bool :=
  existsb (eq_str v) l.

(** Truth value of [v] in a condition. *)
Definition truthy (v : json) : bool :=
  match v with
  | JNull => false
  | JBool b => b
  | JNum n => negb (Z.eqb n 0)
  | JStr s => negb (String.eqb s "")
  | JArr l => match l with [] => false | _ => true end
  | JObj l => match l with [] => false | _ => true end
  end.

Fixpoint chars (s : string) : list json :=
  match s with
  | EmptyString => []
  | String c rest => JStr (String c EmptyString) :: chars rest
  end.

(** The elements a [for] loop over [v] visits. *)
Definition iter (v : json) : exn + list json :=
  match v with
  | JArr l => inr l
  | JObj items => inr (map (fun kv => JStr (fst kv)) items)
  | JStr s => inr (chars s)
  | _ => inl TypeError
  end.

End Py.
Import Py.

(** ** Calendar dates, [timedelta(days=n)] and [strftime("%Y-%m-%d")] *)

Module Datetime.

Record date : Type := mkDate { year : nat; month : nat; day : nat }.

Definition is_leap (y : nat) : bool :=
  (Nat.eqb (y mod 4) 0 && negb (Nat.eqb (y mod 100) 0)) || Nat.eqb (y mod 400) 0.

Definition days_in_month (y m : nat) : nat :=
  match m with
  | 2 => if is_leap y then 29 else 28
  | 4 | 6 | 9 | 11 => 30
  | _ => 31
  end.

Definition prev_day (d : date) : date :=
  match day d with
  | 0 | 1 =>
      match month d with
      | 0 | 1 => mkDate (year d - 1) 12 31
      | S m => mkDate (year d) m (days_in_month (year d) m)
      end
  | S n => mkDate (year d) (month d) n
  end.

(** [d - timedelta(days=n)] on the date part. *)
Fixpoint minus_days (d : date) (n : nat) : date :=
  match n with
  | O => d
  | S n' => minus_days (prev_day d) n'
  end.

Definition digit (n : nat) : string :=
  String (ascii_of_nat (48 + n mod 10)) EmptyString.

Definition pad2 (n : nat) : string := (digit (n / 10) ++ digit n)%string.
Definition pad4 (n : nat) : string := (pad2 (n / 100) ++ pad2 (n mod 100))%string.

(** [d.strftime("%Y-%m-%d")], for years of four digits. *)
Definition strftime_Ymd (d : date) : string :=
  (pad4 (year d) ++ "-" ++ pad2 (month d) ++ "-" ++ pad2 (day d))%string.

End Datetime.
Import Datetime.

(** ** The pydantic models of the agent-creation request *)

Module Models.

Record SearchConfiguration : Type := mkSearchConfiguration {
  connection_id : option string;
  count : Z;
  market : string;
  set_lang : string;
  freshness : string
}.

Record BingGrounding : Type := mkBingGrounding {
  search_configurations : list SearchConfiguration
}.

Record Tool : Type := mkTool {
  type : string;
  bing_grounding : BingGrounding
}.

Record CreateAgentRequest : Type := mkCreateAgentRequest {
  instructions : string;
  name : string;
  model : string;
  tools : list Tool
}.

Section ClassDefinitions.

(** What [datetime.now()] returned while the class bodies were executed,
    that is, when the module was imported. *)
Variable loaded : date.

(** The default of the field [freshness] is an expression of the class
    body: it is evaluated once, there. *)
Definition freshness_default : string :=
  strftime_Ymd (minus_days loaded 3).

(** [SearchConfiguration()] *)
Definition new_SearchConfiguration : SearchConfiguration :=
  {| connection_id := None;
     count := 7;
     market := "en-US";
     set_lang := "en";
     freshness := freshness_default |}.

(** [BingGrounding()]: the list comes from a [default_factory]. *)
Definition new_BingGrounding : BingGrounding :=
  {| search_configurations := [new_SearchConfiguration] |}.

(** The default of [Tool.bing_grounding] is the instance built in the
    class body; every [Tool()] receives a copy of it. *)
Definition bing_grounding_default : BingGrounding := new_BingGrounding.

(** [Tool()] *)
Definition new_Tool : Tool :=
  {| type := "bing_grounding"; bing_grounding := bing_grounding_default |}.

(** [CreateAgentRequest()] *)
Definition new_CreateAgentRequest : CreateAgentRequest :=
  {| instructions := "You are a helpful agent.";
     name := "my-agent";
     model := "gpt-4o";
     tools := [new_Tool] |}.

End ClassDefinitions.

(** [payload.tools[0].bing_grounding.search_configurations[0].connection_id = cid] *)
Definition set_connection_id (payload : CreateAgentRequest) (cid : string)
  : exn + CreateAgentRequest :=
  match tools payload with
  | [] => inl IndexError
  | t :: ts =>
      match search_configurations (bing_grounding t) with
      | [] => inl IndexError
      | sc :: scs =>
          let sc' := {| connection_id := Some cid;
                        count := count sc;
                        market := market sc;
                        set_lang := set_lang sc;
                        freshness := freshness sc |} in
          let t' := {| type := type t;
                       bing_grounding := {| search_configurations := sc' :: scs |} |} in
          inr {| instructions := instructions payload;
                 name := name payload;
                 model := model payload;
                 tools := t' :: ts |}
      end
  end.

(** [model_dump_json(exclude_none=True)], kept as the JSON value that is
    written out: fields in declaration order, [None] fields left out. *)
Definition dump_SearchConfiguration (sc : SearchConfiguration) : json :=
  JObj ((match connection_id sc with
         | Some cid => [("connection_id", JStr cid)]
         | None => []
         end)
        ++ [("count", JNum (count sc));
            ("market", JStr (market sc));
            ("set_lang", JStr (set_lang sc));
            ("freshness", JStr (freshness sc))]).

Definition dump_BingGrounding (b : BingGrounding) : json :=
  JObj [("search_configurations",
         JArr (map dump_SearchConfiguration (search_configurations b)))].

Definition dump_Tool (t : Tool) : json :=
  JObj [("type", JStr (type t));
        ("bing_grounding", dump_BingGrounding (bing_grounding t))].

Definition serialize (r : CreateAgentRequest) : json :=
  JObj [("instructions", JStr (instructions r));
        ("name", JStr (name r));
        ("model", JStr (model r));
        ("tools", JArr (map dump_Tool (tools r)))].

End Models.

(** ** Requests, replies and the trace *)

Inductive method : Type := POST | GET | DELETE.

(** A request body: literal text, or the text [json.dumps] or
    [model_dump_json] write for a value, kept as that value. *)
Inductive payload : Type :=
| Text (s : string)
| Dumped (v : json).

Record request : Type := mkRequest {
  req_method : method;
  req_url : fstring;
  req_headers : list (string * string);
  req_data : option payload
}.

Inductive event : Type :=
| Request (r : request)
| Sleep (seconds : Z).

(** What comes back for a request: a response with its status code and
    its body decoded as JSON ([None] when it is not JSON), or no response
    at all (the HTTP library raises). *)
Inductive reply : Type :=
| Response (status : Z) (body : option json)
| NoResponse (what : string).

(** ** The client object *)

Record GroundingWithBingSearch : Type := mkClient {
  endpoint : string;
  api_version : string;
  credential : string -> string;        (* scope to bearer token *)
  connection_id : string;
  kwargs : list (string * json);
  headers : list (string * string);
  agent_id : json;
  thread_id : json
}.

Definition with_agent_id (c : GroundingWithBingSearch) (v : json) :=
  {| endpoint := endpoint c; api_version := api_version c;
     credential := credential c; connection_id := connection_id c;
     kwargs := kwargs c; headers := headers c;
     agent_id := v; thread_id := thread_id c |}.

Definition with_thread_id (c : GroundingWithBingSearch) (v : json) :=
  {| endpoint := endpoint c; api_version := api_version c;
     credential := credential c; connection_id := connection_id c;
     kwargs := kwargs c; headers := headers c;
     agent_id := agent_id c; thread_id := v |}.

(** ** Runs of a method: state, exceptions and the scenario *)

Record world : Type := mkWorld {
  self : GroundingWithBingSearch;
  replies : list reply;      (* what the service will answer, in order *)
  trace : list event         (* what the client did so far, oldest first *)
}.

(** A method returns, raises, or is left waiting for a reply the
    scenario does not contain. *)
Inductive result (A : Type) : Type :=
| Ret (a : A)
| Raise (e : exn)
| Pending.
Arguments Ret {A} a.
Arguments Raise {A} e.
Arguments Pending {A}.

Definition M (A : Type) : Type := world -> result A * world.

Definition ret {A} (a : A) : M A := fun w => (Ret a, w).
Definition raise {A} (e : exn) : M A := fun w => (Raise e, w).
Definition pending {A} : M A := fun w => (Pending, w).

Definition bind {A B} (m : M A) (f : A -> M B) : M B :=
  fun w =>
    match m w with
    | (Ret a, w') => f a w'
    | (Raise e, w') => (Raise e, w')
    | (Pending, w') => (Pending, w')
    end.

Declare Scope run_scope.
Delimit Scope run_scope with run.
Notation "x <- m ;; k" := (bind m (fun x => k))
  (at level 61, m at next level, right associativity) : run_scope.
Notation "m ;;; k" := (bind m (fun _ => k))
  (at level 61, right associativity) : run_scope.
Open Scope run_scope.

(** An expression that may raise, evaluated inside a method. *)
Definition eval {A} (r : exn + A) : M A :=
  match r with
  | inl e => raise e
  | inr a => ret a
  end.

Definition get_self : M GroundingWithBingSearch := fun w => (Ret (self w), w).

Definition put_self (c : GroundingWithBingSearch) : M unit :=
  fun w => (Ret tt, {| self := c; replies := replies w; trace := trace w |}).

Definition remaining : M nat := fun w => (Ret (length (replies w)), w).

Definition emit (e : event) : M unit :=
  fun w => (Ret tt, {| self := self w; replies := replies w; trace := trace w ++ [e] |}).

Definition await : M reply :=
  fun w =>
    match replies w with
    | [] => (Pending, w)
    | r :: rest => (Ret r, {| self := self w; replies := rest; trace := trace w |})
    end.

(** [asyncio.sleep(s)] *)
Definition sleep (s : Z) : M unit := emit (Sleep s).

Fixpoint for_each {A} (l : list A) (body : A -> M unit) : M unit :=
  match l with
  | [] => ret tt
  | x :: rest => body x ;;; for_each rest body
  end.

(** ** The constructor and the private methods of [GroundingWithBingSearch] *)

Module Client.

Definition _get_token (cred : string -> string) : string :=
  cred "https://ai.azure.com/.default".

(** The constructor: the bearer token is read once, here. *)
Definition __init__ (endpoint : string) (credential : string -> string)
    (api_version connection_id : string) (kwargs : list (string * json))
  : GroundingWithBingSearch :=
  {| endpoint := endpoint;
     api_version := api_version;
     credential := credential;
     connection_id := connection_id;
     kwargs := kwargs;
     headers := [("Content-Type", "application/json");
                 ("Authorization", ("Bearer " ++ _get_token credential)%string)];
     agent_id := JNull;
     thread_id := JNull |}.

(** [response.json()] *)
Definition response_json (r : reply) : exn + json :=
  match r with
  | Response _ (Some v) => inr v
  | Response _ None => inl ContentTypeError
  | NoResponse what => inl (ClientError what)
  end.

(** A request leaves with the headers of the client. *)
Definition call (c : GroundingWithBingSearch) (m : method) (url : fstring)
    (data : option payload) : event :=
  Request {| req_method := m; req_url := url;
             req_headers := headers c; req_data := data |}.

Definition send (m : method) (url : fstring) (data : option payload) : M unit :=
  c <- get_self ;;
  emit (call c m url data).

Definition _post (url : fstring) (data : payload) : M json :=
  send POST url (Some data) ;;;
  r <- await ;;
  eval (response_json r).

Definition _get (url : fstring) : M json :=
  send GET url None ;;;
  r <- await ;;
  eval (response_json r).

Definition _delete (url : fstring) : M unit :=
  send DELETE url None ;;;
  r <- await ;;
  match r with
  | Response status _ =>
      if negb (Z.eqb status 200)
      then raise (Exception [Lit "Failed to delete: "; Val (JNum status)])
      else ret tt
  | NoResponse what => raise (ClientError what)
  end.

(** The URLs, as the f-strings of the source. *)
Definition assistants_url (c : GroundingWithBingSearch) : fstring :=
  [Val (JStr (endpoint c)); Lit "/assistants?api-version="; Val (JStr (api_version c))].

Definition assistant_url (c : GroundingWithBingSearch) (agent_id : json) : fstring :=
  [Val (JStr (endpoint c)); Lit "/assistants/"; Val agent_id;
   Lit "?api-version="; Val (JStr (api_version c))].

Definition threads_url (c : GroundingWithBingSearch) : fstring :=
  [Val (JStr (endpoint c)); Lit "/threads?api-version="; Val (JStr (api_version c))].

Definition thread_url (c : GroundingWithBingSearch) (thread_id : json) : fstring :=
  [Val (JStr (endpoint c)); Lit "/threads/"; Val thread_id;
   Lit "?api-version="; Val (JStr (api_version c))].

Definition messages_url (c : GroundingWithBingSearch) (thread_id : json) : fstring :=
  [Val (JStr (endpoint c)); Lit "/threads/"; Val thread_id;
   Lit "/messages?api-version="; Val (JStr (api_version c))].

Definition runs_url (c : GroundingWithBingSearch) (thread_id : json) : fstring :=
  [Val (JStr (endpoint c)); Lit "/threads/"; Val thread_id;
   Lit "/runs?api-version="; Val (JStr (api_version c))].

Definition run_url (c : GroundingWithBingSearch) (thread_id run_id : json) : fstring :=
  [Val (JStr (endpoint c)); Lit "/threads/"; Val thread_id; Lit "/runs/"; Val run_id;
   Lit "?api-version="; Val (JStr (api_version c))].

Section WithModule.

(** The clock reading at import, which the class bodies of the models saw. *)
Variable loaded : date.

(** The body [_create_agent] posts. *)
Definition _create_agent_payload (c : GroundingWithBingSearch) : exn + payload :=
  match Models.set_connection_id (Models.new_CreateAgentRequest loaded) (connection_id c) with
  | inl e => inl e
  | inr p => inr (Dumped (Models.serialize p))
  end.

Definition _create_agent : M json :=
  c <- get_self ;;
  data <- eval (_create_agent_payload c) ;;
  _post (assistants_url c) data.

Definition _delete_agent (agent_id : json) : M unit :=
  c <- get_self ;;
  _delete (assistant_url c agent_id).

Definition _create_thread : M json :=
  c <- get_self ;;
  _post (threads_url c) (Text "").

Definition _delete_thread (thread_id : json) : M unit :=
  c <- get_self ;;
  _delete (thread_url c thread_id).

Definition _ask_to_thread (thread_id : json) (message : string) : M json :=
  c <- get_self ;;
  _post (messages_url c thread_id)
        (Dumped (JObj [("content", JStr message); ("role", JStr "user")])).

Definition _runs (thread_id assistant_id : json) : M json :=
  c <- get_self ;;
  _post (runs_url c thread_id) (Dumped (JObj [("assistant_id", assistant_id)])).

Definition _status_run (thread_id run_id : json) : M json :=
  c <- get_self ;;
  _get (run_url c thread_id run_id).

Definition _get_response (thread_id : json) : M json :=
  c <- get_self ;;
  _get (messages_url c thread_id).

(** ** The public methods *)

(** The reply of a request whose task nobody awaits any more. *)
Definition abandon : M unit :=
  fun w => (Ret tt, {| self := self w; replies := tl (replies w); trace := trace w |}).

(** [asyncio.gather(self._create_agent(), self._create_thread())]: both
    requests are on their way before either reply is awaited.  The
    scenario lists the reply to the agent request before the reply to
    the thread request.  The first exception is raised to the caller at
    once; the other task is left to finish alone.  When both calls fail,
    which exception comes first is a matter of timing: the agent's is
    taken. *)
Definition gather_create : M (json * json) :=
  c <- get_self ;;
  data <- eval (_create_agent_payload c) ;;
  send POST (assistants_url c) (Some data) ;;;
  send POST (threads_url c) (Some (Text "")) ;;;
  ra <- await ;;
  match response_json ra with
  | inl e => abandon ;;; raise e
  | inr a =>
      rt <- await ;;
      t <- eval (response_json rt) ;;
      ret (a, t)
  end.

Definition init_agent_threads : M unit :=
  results <- gather_create ;;
  a <- eval (subscript (fst results) "id") ;;
  c <- get_self ;;
  put_self (with_agent_id c a) ;;;
  t <- eval (subscript (snd results) "id") ;;
  c <- get_self ;;
  put_self (with_thread_id c t).

(** The [while] loop of [search].  Every turn that comes back to the
    head of the loop has taken a reply from the scenario, so one unit of
    fuel per remaining reply, and one more, is enough. *)
Fixpoint poll_loop (fuel : nat) (runs_result status_run_result : json) : M json :=
  match fuel with
  | O => pending
  | S fuel' =>
      st <- eval (subscript status_run_result "status") ;;
      if negb (in_strs st ["completed"; "failed"]) then
        st' <- eval (subscript status_run_result "status") ;;
        if eq_str st' "incomplete" then
          details <- eval (subscript status_run_result "incomplete_details") ;;
          raise (Exception [Lit "Run is incomplete. details:"; Val details])
        else
          sleep 1 ;;;
          c <- get_self ;;
          run_id <- eval (subscript runs_result "id") ;;
          next <- _status_run (thread_id c) run_id ;;
          poll_loop fuel' runs_result next
      else ret status_run_result
  end.

Definition search (query : string) : M json :=
  init_agent_threads ;;;
  c <- get_self ;;
  _ask_to_thread (thread_id c) query ;;;
  c <- get_self ;;
  runs_result <- _runs (thread_id c) (agent_id c) ;;
  c <- get_self ;;
  run_id <- eval (subscript runs_result "id") ;;
  status_run_result <- _status_run (thread_id c) run_id ;;
  n <- remaining ;;
  poll_loop (S n) runs_result status_run_result ;;;
  c <- get_self ;;
  response_result <- _get_response (thread_id c) ;;
  eval (subscript response_result "data").

Definition delete_agent_threads : M unit :=
  c <- get_self ;;
  (if truthy (agent_id c) then _delete_agent (agent_id c) else ret tt) ;;;
  c <- get_self ;;
  (if truthy (thread_id c) then _delete_thread (thread_id c) else ret tt).

(** ** The bulk deletion methods *)

(** The [while results["has_more"]] loop shared, up to the kind of the
    resource, by [_delete_all_threads] and [_delete_all_agents]. *)
Fixpoint delete_all_loop (fuel : nat) (url : fstring) (delete_one : json -> M unit)
    (results : json) : M unit :=
  match fuel with
  | O => pending
  | S fuel' =>
      more <- eval (subscript results "has_more") ;;
      if truthy more then
        data <- eval (subscript results "data") ;;
        items <- eval (iter data) ;;
        for_each items (fun item =>
          item_id <- eval (subscript item "id") ;;
          delete_one item_id) ;;;
        more' <- eval (subscript results "has_more") ;;
        if negb (truthy more') then ret tt
        else
          results' <- _get url ;;
          delete_all_loop fuel' url delete_one results'
      else ret tt
  end.

Definition _delete_all_threads : M unit :=
  c <- get_self ;;
  results <- _get (threads_url c) ;;
  n <- remaining ;;
  delete_all_loop (S n) (threads_url c) _delete_thread results.

Definition _delete_all_agents : M unit :=
  c <- get_self ;;
  results <- _get (assistants_url c) ;;
  n <- remaining ;;
  delete_all_loop (S n) (assistants_url c) _delete_agent results.

End WithModule.

(** Runs are started on a fresh trace. *)
Definition start (c : GroundingWithBingSearch) (scenario : list reply) : world :=
  {| self := c; replies := scenario; trace := [] |}.

End Client.
Import Client.

(** * What scenarios say and what traces show *)

(** Field [k] of the JSON body of a reply. *)
Definition reply_field (r : reply) (k : string) : exn + json :=
  match response_json r with
  | inl e => inl e
  | inr v => subscript v k
  end.

(** The run status a poll reply reports. *)
Definition status_of (r : reply) : exn + json := reply_field r "status".

(** A poll reply after which the loop of [search] polls again. *)
Definition nonterminal (r : reply) : bool :=
  match status_of r with
  | inr s => negb (in_strs s ["completed"; "failed"; "incomplete"])
  | inl _ => false
  end.

Definition method_eqb (m1 m2 : method) : bool :=
  match m1, m2 with
  | POST, POST | GET, GET | DELETE, DELETE => true
  | _, _ => false
  end.

(** The literal parts of a URL tell the endpoint it addresses. *)
Fixpoint literals (u : fstring) : list string :=
  match u with
  | [] => []
  | Lit s :: rest => s :: literals rest
  | Val _ :: rest => literals rest
  end.

Fixpoint strings_eqb (l1 l2 : list string) : bool :=
  match l1, l2 with
  | [], [] => true
  | s1 :: r1, s2 :: r2 => String.eqb s1 s2 && strings_eqb r1 r2
  | _, _ => false
  end.

Definition addresses (m : method) (lits : list string) (e : event) : bool :=
  match e with
  | Request r => method_eqb (req_method r) m && strings_eqb (literals (req_url r)) lits
  | Sleep _ => false
  end.

(** [GET .../threads/{id}/runs/{id}]: a poll of the run status. *)
Definition is_poll : event -> bool :=
  addresses GET ["/threads/"; "/runs/"; "?api-version="].

(** [GET .../threads/{id}/messages]: the fetch of the result messages. *)
Definition is_fetch : event -> bool :=
  addresses GET ["/threads/"; "/messages?api-version="].

Definition is_delete (e : event) : bool :=
  match e with
  | Request r => method_eqb (req_method r) DELETE
  | Sleep _ => false
  end.

Definition is_sleep (e : event) : bool :=
  match e with
  | Sleep _ => true
  | Request _ => false
  end.

Definition count (p : event -> bool) (t : list event) : nat :=
  length (filter p t).

(** The JSON document [_create_agent] posts for a client, in a module
    imported at [loaded]. *)
Definition agent_body (loaded : date) (c : GroundingWithBingSearch) : json :=
  JObj [("instructions", JStr "You are a helpful agent.");
        ("name", JStr "my-agent");
        ("model", JStr "gpt-4o");
        ("tools",
         JArr [JObj [("type", JStr "bing_grounding");
                     ("bing_grounding",
                      JObj [("search_configurations",
                             JArr [JObj [("connection_id", JStr (connection_id c));
                                         ("count", JNum 7);
                                         ("market", JStr "en-US");
                                         ("set_lang", JStr "en");
                                         ("freshness",
                                          JStr (strftime_Ymd (minus_days loaded 3)))]])])]])].

(** The trace of [n] further polls, each after a sleep of one second. *)
Fixpoint repolls (poll : event) (n : nat) : list event :=
  match n with
  | O => []
  | S n' => Sleep 1 :: poll :: repolls poll n'
  end.

(** The client once [init_agent_threads] has stored the two identifiers. *)
Definition after_init (c : GroundingWithBingSearch) (a t : json) :=
  with_thread_id (with_agent_id c a) t.

Definition poll_call (c : GroundingWithBingSearch) (t rid : json) : event :=
  call c GET (run_url c t rid) None.

Definition fetch_call (c : GroundingWithBingSearch) (t : json) : event :=
  call c GET (messages_url c t) None.

(** What [search] does before its first poll. *)
Definition prologue (loaded : date) (c : GroundingWithBingSearch) (a t : json) (query : string)
  : list event :=
  [call c POST (assistants_url c) (Some (Dumped (agent_body loaded c)));
   call c POST (threads_url c) (Some (Text ""));
   call c POST (messages_url c t)
     (Some (Dumped (JObj [("content", JStr query); ("role", JStr "user")])));
   call c POST (runs_url c t) (Some (Dumped (JObj [("assistant_id", a)])))].


(** A run that ended by raising. *)
Definition raised {A} (out : result A * world) : Prop :=
  exists e, fst out = Raise e.

(** ** Sample data *)

Module Demo.

Definition today : date := mkDate 2025 1 10.

Definition client : GroundingWithBingSearch :=
  Client.__init__ "https://example.test/api/projects/demo" (fun _ => "secret")
    "2025-05-15-preview" "bing-connection" [].

Definition ok (body : json) : reply := Response 200 (Some body).

Definition created (id : string) : reply := ok (JObj [("id", JStr id)]).

Definition run (status : string) : reply :=
  ok (JObj [("id", JStr "run_1"); ("status", JStr status)]).

Definition incomplete_run : reply :=
  ok (JObj [("id", JStr "run_1"); ("status", JStr "incomplete");
            ("incomplete_details", JObj [("reason", JStr "X")])]).

Definition answer : json :=
  JArr [JObj [("role", JStr "assistant"); ("content", JStr "news")]].

Definition messages : reply := ok (JObj [("object", JStr "list"); ("data", answer)]).

(** Replies to the four requests [search] makes before it polls. *)
Definition opening : list reply :=
  [created "asst_1"; created "thread_1"; created "msg_1"; run "queued"].

End Demo.

(** ** What a method leaves alone *)

(** The fields of the client other than the two identifiers. *)
Definition same_config (c c' : GroundingWithBingSearch) : Prop :=
  endpoint c' = endpoint c /\ api_version c' = api_version c /\
  credential c' = credential c /\ connection_id c' = connection_id c /\
  kwargs c' = kwargs c /\ headers c' = headers c.

(** A method that leaves the client object as it was, and that only
    adds to the trace, and no [DELETE] request. *)
Definition quiet {A} (m : M A) : Prop :=
  forall w,
    self (snd (m w)) = self w /\
    exists added, trace (snd (m w)) = trace w ++ added /\ count is_delete added = 0.

(** What [search] does after [init_agent_threads]. *)
Definition after_init_part (query : string) : M json :=
  c <- get_self ;;
  _ask_to_thread (thread_id c) query ;;;
  c <- get_self ;;
  runs_result <- _runs (thread_id c) (agent_id c) ;;
  c <- get_self ;;
  run_id <- eval (subscript runs_result "id") ;;
  status_run_result <- _status_run (thread_id c) run_id ;;
  n <- remaining ;;
  poll_loop (S n) runs_result status_run_result ;;;
  c <- get_self ;;
  response_result <- _get_response (thread_id c) ;;
  eval (subscript response_result "data").

(** [DELETE .../assistants/{id}] and [DELETE .../threads/{id}]. *)
Definition is_agent_delete : event -> bool :=
  addresses DELETE ["/assistants/"; "?api-version="].

Definition is_thread_delete : event -> bool :=
  addresses DELETE ["/threads/"; "?api-version="].

Definition agent_delete (c : GroundingWithBingSearch) : event :=
  call c DELETE (assistant_url c (agent_id c)) None.

Definition thread_delete (c : GroundingWithBingSearch) : event :=
  call c DELETE (thread_url c (thread_id c)) None.

(** The exception [_delete] raises for a reply, if it raises one. *)
Definition deletion_failure (r : reply) : option exn :=
  match r with
  | Response status _ =>
      if Z.eqb status 200 then None
      else Some (Exception [Lit "Failed to delete: "; Val (JNum status)])
  | NoResponse what => Some (ClientError what)
  end.

(** [v[i]] for a list index [i]. *)
Definition item (v : json) (i : nat) : exn + json :=
  match v with
  | JArr l =>
      match nth_error l i with
      | Some x => inr x
      | None => inl IndexError
      end
  | _ => inl TypeError
  end.

Definition and_then {A B} (r : exn + A) (f : A -> exn + B) : exn + B :=
  match r with
  | inl e => inl e
  | inr a => f a
  end.

(** [body["tools"][0]["bing_grounding"]["search_configurations"][0]] *)
Definition tool_configuration (body : json) : exn + json :=
  and_then (subscript body "tools") (fun tools =>
  and_then (item tools 0) (fun tool =>
  and_then (subscript tool "bing_grounding") (fun grounding =>
  and_then (subscript grounding "search_configurations") (fun configurations =>
  item configurations 0)))).

(** The body of the first request of a trace, when it is a dumped value. *)
Definition first_body (t : list event) : option json :=
  match t with
  | Request r :: _ =>
      match req_data r with
      | Some (Dumped v) => Some v
      | _ => None
      end
  | _ => None
  end.

Module Samples.

(** A client that holds the identifiers of an earlier acquisition. *)
Definition holding : GroundingWithBingSearch :=
  after_init Demo.client (JStr "asst_1") (JStr "thread_1").

(** A listing page. *)
Definition listing (ids : list string) (has_more : bool) : json :=
  JObj [("object", JStr "list");
        ("data", JArr (map (fun i => JObj [("id", JStr i)]) ids));
        ("has_more", JBool has_more)].

Definition page (ids : list string) (has_more : bool) : reply :=
  Demo.ok (listing ids has_more).

End Samples.

(** A run of [m] from [w] takes replies and never adds any, and it is
    left pending only with the scenario used up. *)
Definition waits_for_replies_only {A} (m : M A) (w : world) : Prop :=
  length (replies (snd (m w))) <= length (replies w) /\
  (fst (m w) = Pending -> replies (snd (m w)) = []).

(** ** Further observations on traces *)

(** The first three requests of [search]: the two creations and the
    message. *)
Definition before_run (loaded : date) (c : GroundingWithBingSearch) (t : json)
    (query : string) : list event :=
  [call c POST (assistants_url c) (Some (Dumped (agent_body loaded c)));
   call c POST (threads_url c) (Some (Text ""));
   call c POST (messages_url c t)
     (Some (Dumped (JObj [("content", JStr query); ("role", JStr "user")])))].

(** A run that stops without a value: with an exception, or left
    pending. *)
Definition halted {A} (o : option exn) : result A :=
  match o with
  | Some e => Raise e
  | None => Pending
  end.

(** How awaiting the reply to a poll stops when the scenario holds no
    JSON for it: nothing to come, or the exception of the HTTP library. *)
Definition unanswered (after : list reply) : option (option exn) :=
  match after with
  | [] => Some None
  | x :: _ =>
      match response_json x with
      | inl e => Some (Some e)
      | inr _ => None
      end
  end.

(** What the loop of [search] raises on a reply that says [incomplete]. *)
Definition incomplete_exception (r : reply) : exn :=
  match reply_field r "incomplete_details" with
  | inr details => Exception [Lit "Run is incomplete. details:"; Val details]
  | inl e => e
  end.

(** ** Listings *)

(** The identifiers of the items of a listing, when each item has one. *)
Fixpoint item_ids (items : list json) : exn + list json :=
  match items with
  | [] => inr []
  | it :: rest =>
      and_then (subscript it "id") (fun id =>
      and_then (item_ids rest) (fun ids => inr (id :: ids)))
  end.

(** [[item["id"] for item in body["data"]]] *)
Definition listed_ids (body : json) : exn + list json :=
  and_then (subscript body "data") (fun data => and_then (iter data) item_ids).

(** A reply to the listing together with the bodies of the answers,
    all of status 200, to the deletions that follow it. *)
Record round : Type := mkRound {
  page_code : Z;
  page_body : json;
  deleted : list (option json)
}.

Definition round_ids (p : round) : list json :=
  match listed_ids (page_body p) with
  | inr ids => ids
  | inl _ => []
  end.

(** The page says [has_more], every item has an identifier, and there
    is one answer per item. *)
Definition full_round (p : round) : bool :=
  match subscript (page_body p) "has_more", listed_ids (page_body p) with
  | inr more, inr ids => truthy more && Nat.eqb (length (deleted p)) (length ids)
  | _, _ => false
  end.

Definition round_replies (p : round) : list reply :=
  Response (page_code p) (Some (page_body p)) :: map (Response 200) (deleted p).

(** What a turn of the bulk deletion does on such a page: one deletion
    per item, in the order of the page, then the listing again. *)
Definition round_events (c : GroundingWithBingSearch) (url : fstring)
    (url_of : GroundingWithBingSearch -> json -> fstring) (p : round) : list event :=
  map (fun id => call c DELETE (url_of c id) None) (round_ids p)
  ++ [call c GET url None].

(** ** Regular traffic *)

(** A request that carries the headers [hs], or a sleep of one second. *)
Definition regular (hs : list (string * string)) (e : event) : Prop :=
  match e with
  | Request r => req_headers r = hs
  | Sleep seconds => seconds = 1%Z
  end.

(** A run of [m] from [w] leaves the headers of the client at [hs] and
    adds only regular events to the trace. *)
Definition steady {A} (hs : list (string * string)) (m : M A) (w : world) : Prop :=
  headers (self (snd (m w))) = hs /\
  exists added, trace (snd (m w)) = trace w ++ added /\ Forall (regular hs) added.

(** ** The plugin of [main.py] *)

Module Plugin.

(** [BingSearchPlugin.bing_search] is an asynchronous generator over the
    one client of the plugin, which is the client of the world: it
    searches, yields the result, and deletes the agent and the thread
    when it is resumed.  A generator is run one step at a time; a step
    that raises leaves it closed. *)
Inductive generator : Type := Created | Suspended | Closed.

Inductive item : Type :=
| Item (v : json)
| StopAsyncIteration.

Definition bing_search (loaded : date) (query : string) (g : generator)
  : M (item * generator) :=
  match g with
  | Created =>
      result <- search loaded query ;;
      ret (Item result, Suspended)
  | Suspended =>
      delete_agent_threads ;;;
      ret (StopAsyncIteration, Closed)
  | Closed => ret (StopAsyncIteration, Closed)
  end.

(** [async for] over a generator: its items, up to [StopAsyncIteration]. *)
Fixpoint async_for (fuel : nat) (next : generator -> M (item * generator))
    (g : generator) : M (list json) :=
  match fuel with
  | O => pending
  | S fuel' =>
      step <- next g ;;
      match fst step with
      | Item v =>
          rest <- async_for fuel' next (snd step) ;;
          ret (v :: rest)
      | StopAsyncIteration => ret []
      end
  end.

(** The generator has two steps; three units of fuel see its end. *)
Definition bing_search_items (loaded : date) (query : string) : M (list json) :=
  async_for 3 (bing_search loaded query) Created.

End Plugin.

(** ** Answers that differ in their status code only *)

Definition same_body (r r' : reply) : Prop :=
  match r, r' with
  | Response _ body, Response _ body' => body = body'
  | NoResponse what, NoResponse what' => what = what'
  | _, _ => False
  end.

Definition alike (w w' : world) : Prop :=
  self w = self w' /\ trace w = trace w' /\ Forall2 same_body (replies w) (replies w').

(** A method whose runs do not depend on the status codes to come. *)
Definition blind {A} (m : M A) : Prop :=
  forall w w', alike w w' -> fst (m w) = fst (m w') /\ alike (snd (m w)) (snd (m w')).
(** * Running the methods step by step *)

Section Steps.

Variable loaded : date.

Lemma bind_ret {A B} (m : M A) (f : A -> M B) w a w' :
  m w = (Ret a, w') -> bind m f w = f a w'.
Proof. unfold bind. intros ->. reflexivity. Qed.

Lemma bind_raise {A B} (m : M A) (f : A -> M B) w e w' :
  m w = (Raise e, w') -> bind m f w = (Raise e, w').
Proof. unfold bind. intros ->. reflexivity. Qed.

Lemma bind_pending {A B} (m : M A) (f : A -> M B) w w' :
  m w = (Pending, w') -> bind m f w = (Pending, w').
Proof. unfold bind. intros ->. reflexivity. Qed.

Lemma reply_field_inv r k v :
  reply_field r k = inr v ->
  exists status body, r = Response status (Some body) /\ subscript body k = inr v.
Proof.
  unfold reply_field.
  destruct r as [status [body|]|what]; simpl; try discriminate; eauto.
Qed.

Lemma create_agent_payload_eq c :
  _create_agent_payload loaded c = inr (Dumped (agent_body loaded c)).
Proof. reflexivity. Qed.

Lemma eval_inr {A} (r : exn + A) a w : r = inr a -> eval r w = (Ret a, w).
Proof. intros ->. reflexivity. Qed.

Lemma eval_inl {A} (r : exn + A) e w : r = inl e -> eval r w = (Raise e, w).
Proof. intros ->. reflexivity. Qed.

Lemma post_ok c url data status body rest t :
  _post url data (mkWorld c (Response status (Some body) :: rest) t)
  = (Ret body, mkWorld c rest (t ++ [call c POST url (Some data)])).
Proof. reflexivity. Qed.

Lemma get_ok c url status body rest t :
  _get url (mkWorld c (Response status (Some body) :: rest) t)
  = (Ret body, mkWorld c rest (t ++ [call c GET url None])).
Proof. reflexivity. Qed.

Lemma delete_ok c url body rest t :
  _delete url (mkWorld c (Response 200 body :: rest) t)
  = (Ret tt, mkWorld c rest (t ++ [call c DELETE url None])).
Proof. reflexivity. Qed.

Lemma delete_refused c url status body rest t :
  status <> 200%Z ->
  _delete url (mkWorld c (Response status body :: rest) t)
  = (Raise (Exception [Lit "Failed to delete: "; Val (JNum status)]),
     mkWorld c rest (t ++ [call c DELETE url None])).
Proof.
  intros H. unfold _delete, send, bind, get_self, emit, await. simpl.
  destruct (Z.eqb_spec status 200) as [E|E]; [contradiction|reflexivity].
Qed.

Lemma init_agent_threads_ok c sa ba st bt a t rest t0 :
  subscript ba "id" = inr a ->
  subscript bt "id" = inr t ->
  init_agent_threads loaded
    (mkWorld c (Response sa (Some ba) :: Response st (Some bt) :: rest) t0)
  = (Ret tt,
     mkWorld (with_thread_id (with_agent_id c a) t) rest
       (t0 ++ [call c POST (assistants_url c) (Some (Dumped (agent_body loaded c)));
               call c POST (threads_url c) (Some (Text ""))])).
Proof.
  intros Ha Ht.
  unfold init_agent_threads, gather_create, send, bind, get_self, put_self, emit, await.
  simpl. rewrite Ha. simpl. rewrite Ht. simpl.
  rewrite <- app_assoc. reflexivity.
Qed.

End Steps.

(** * The poll loop *)

Section PollLoop.

Variable loaded : date.

Lemma nonterminal_inv r :
  nonterminal r = true ->
  exists code body s,
    r = Response code (Some body) /\ subscript body "status" = inr s /\
    in_strs s ["completed"; "failed"] = false /\ eq_str s "incomplete" = false.
Proof.
  unfold nonterminal, status_of. intros H.
  destruct (reply_field r "status") as [e|s] eqn:E; [discriminate|].
  destruct (reply_field_inv _ _ _ E) as (code & body & -> & Hs).
  exists code, body, s. repeat split; trivial.
  - apply negb_true_iff in H. simpl in H |- *.
    destruct (eq_str s "completed"); [discriminate|].
    destruct (eq_str s "failed"); [discriminate|reflexivity].
  - apply negb_true_iff in H. simpl in H.
    destruct (eq_str s "incomplete"); [|reflexivity].
    rewrite !orb_true_r in H. discriminate.
Qed.

Lemma status_run_ok c tid rid code body rest t0 :
  _status_run tid rid (mkWorld c (Response code (Some body) :: rest) t0)
  = (Ret body, mkWorld c rest (t0 ++ [call c GET (run_url c tid rid) None])).
Proof. reflexivity. Qed.

Lemma remaining_eq w : remaining w = (Ret (length (replies w)), w).
Proof. reflexivity. Qed.

(** One turn of the loop on a status that is not terminal: sleep, poll. *)
Lemma poll_loop_again fuel rr rid cur s c tid code nxt rest t0 :
  thread_id c = tid ->
  subscript cur "status" = inr s ->
  in_strs s ["completed"; "failed"] = false ->
  eq_str s "incomplete" = false ->
  subscript rr "id" = inr rid ->
  poll_loop (S fuel) rr cur (mkWorld c (Response code (Some nxt) :: rest) t0)
  = poll_loop fuel rr nxt
      (mkWorld c rest (t0 ++ [Sleep 1; poll_call c tid rid])).
Proof.
  intros <- Hs Hin Hinc Hid.
  cbn [poll_loop]. unfold bind at 1. rewrite (eval_inr _ _ _ Hs).
  rewrite Hin. cbn [negb].
  unfold bind at 1. rewrite (eval_inr _ _ _ Hs). rewrite Hinc.
  unfold sleep, _status_run, _get, send, bind, get_self, emit, await. simpl.
  rewrite Hid. simpl. rewrite <- app_assoc. reflexivity.
Qed.

(** The loop stops on [completed] and on [failed] alike. *)
Lemma poll_loop_done fuel rr cur s w :
  subscript cur "status" = inr s ->
  in_strs s ["completed"; "failed"] = true ->
  poll_loop (S fuel) rr cur w = (Ret cur, w).
Proof.
  intros Hs Hin. cbn [poll_loop]. unfold bind. rewrite (eval_inr _ _ _ Hs).
  rewrite Hin. reflexivity.
Qed.

Lemma poll_loop_incomplete fuel rr cur details w :
  subscript cur "status" = inr (JStr "incomplete") ->
  subscript cur "incomplete_details" = inr details ->
  poll_loop (S fuel) rr cur w
  = (Raise (Exception [Lit "Run is incomplete. details:"; Val details]), w).
Proof.
  intros Hs Hd. cbn [poll_loop]. rewrite Hs, Hd. reflexivity.
Qed.

(** Through a run of replies that are not terminal, up to the next one. *)
Lemma poll_loop_advance rr rid c tid code lb rest pre :
  thread_id c = tid ->
  subscript rr "id" = inr rid ->
  forallb nonterminal pre = true ->
  forall k cur s t0,
    subscript cur "status" = inr s ->
    in_strs s ["completed"; "failed"] = false ->
    eq_str s "incomplete" = false ->
    poll_loop (S (length pre) + k) rr cur
      (mkWorld c (pre ++ Response code (Some lb) :: rest) t0)
    = poll_loop k rr lb
        (mkWorld c rest (t0 ++ repolls (poll_call c tid rid) (S (length pre)))).
Proof.
  intros Htid Hid. induction pre as [|p pre IH]; intros Hpre k cur s t0 Hs Hin Hinc.
  - simpl. apply (poll_loop_again _ _ _ _ _ _ _ _ _ _ _ Htid Hs Hin Hinc Hid).
  - simpl in Hpre. apply andb_true_iff in Hpre. destruct Hpre as [Hp Hpre].
    destruct (nonterminal_inv _ Hp) as (pc & pb & ps & -> & Hps & Hpin & Hpinc).
    change (S (length (Response pc (Some pb) :: pre)) + k)
      with (S (S (length pre) + k)).
    change ((Response pc (Some pb) :: pre) ++ Response code (Some lb) :: rest)%list
      with (Response pc (Some pb) :: (pre ++ Response code (Some lb) :: rest))%list.
    rewrite (poll_loop_again _ _ _ _ _ _ _ _ _ _ _ Htid Hs Hin Hinc Hid).
    rewrite (IH Hpre _ _ _ _ Hps Hpin Hpinc).
    rewrite <- app_assoc. reflexivity.
Qed.

Lemma bind_congr {A B} (m m' : M A) (K : A -> M B) w w' :
  m w = m' w' -> bind m K w = bind m' K w'.
Proof. unfold bind. intros ->. reflexivity. Qed.

(** The first poll of [search] and the loop, up to the first reply that
    is terminal or erroneous: the loop is then at that reply, with fuel
    left, and the trace shows one poll per reply, a sleep before each
    but the first. *)
Lemma first_poll_then_loop {B} (K : json -> M B) rr rid c tid code lb rest pre t0 :
  thread_id c = tid ->
  subscript rr "id" = inr rid ->
  forallb nonterminal pre = true ->
  (status_run_result <- _status_run tid rid ;;
   n <- remaining ;;
   bind (poll_loop (S n) rr status_run_result) K)
    (mkWorld c (pre ++ Response code (Some lb) :: rest) t0)
  = bind (poll_loop (S (length rest)) rr lb) K
      (mkWorld c rest
         (t0 ++ poll_call c tid rid :: repolls (poll_call c tid rid) (length pre))).
Proof.
  intros Htid Hid Hpre. destruct pre as [|p pre].
  - reflexivity.
  - simpl in Hpre. apply andb_true_iff in Hpre. destruct Hpre as [Hp Hpre].
    destruct (nonterminal_inv _ Hp) as (pc & pb & ps & -> & Hps & Hpin & Hpinc).
    change ((Response pc (Some pb) :: pre) ++ Response code (Some lb) :: rest)%list
      with (Response pc (Some pb) :: (pre ++ Response code (Some lb) :: rest))%list.
    rewrite (bind_ret _ _ _ _ _ (status_run_ok _ _ _ _ _ _ _)).
    rewrite (bind_ret _ _ _ _ _ (remaining_eq _)).
    cbn [replies]. apply bind_congr.
    replace (S (length (pre ++ Response code (Some lb) :: rest)))
      with (S (length pre) + S (length rest))
      by (rewrite length_app; simpl; lia).
    rewrite (poll_loop_advance _ _ _ _ _ _ _ _ Htid Hid Hpre _ _ _ _ Hps Hpin Hpinc).
    rewrite <- app_assoc. reflexivity.
Qed.

(** [search] up to its first poll, when the four requests before it are
    answered with JSON and the identifiers are there. *)
Lemma search_prologue c query ra rt rm rr a t mb rid polls :
  reply_field ra "id" = inr a ->
  reply_field rt "id" = inr t ->
  response_json rm = inr mb ->
  reply_field rr "id" = inr rid ->
  exists rrb,
    subscript rrb "id" = inr rid /\
    search loaded query (start c (ra :: rt :: rm :: rr :: polls))
    = (status_run_result <- _status_run t rid ;;
       n <- remaining ;;
       poll_loop (S n) rrb status_run_result ;;;
       c' <- get_self ;;
       response_result <- _get_response (thread_id c') ;;
       eval (subscript response_result "data"))
        (mkWorld (after_init c a t) polls (prologue loaded c a t query)).
Proof.
  intros Ha Ht Hm Hr.
  destruct (reply_field_inv _ _ _ Ha) as (sa & ba & -> & Ha').
  destruct (reply_field_inv _ _ _ Ht) as (st & bt & -> & Ht').
  destruct (reply_field_inv _ _ _ Hr) as (sr & rrb & -> & Hr').
  destruct rm as [sm [bm|]|]; try discriminate.
  exists rrb. split; [exact Hr'|].
  unfold search, start.
  rewrite (bind_ret _ _ _ _ _ (init_agent_threads_ok loaded c _ _ _ _ _ _ _ _ Ha' Ht')).
  unfold get_self at 1, bind at 1. cbn [self].
  unfold _ask_to_thread at 1.
  unfold get_self at 1, bind at 1 2. cbn [self].
  rewrite post_ok.
  unfold get_self at 1, bind at 1. cbn [self].
  unfold _runs at 1.
  unfold get_self at 1, bind at 1 2. cbn [self].
  rewrite post_ok.
  unfold get_self at 1, bind at 1. cbn [self].
  rewrite (bind_ret _ _ _ _ _ (eval_inr _ _ _ Hr')).
  reflexivity.
Qed.

Lemma count_app p (t1 t2 : list event) :
  count p (t1 ++ t2) = count p t1 + count p t2.
Proof. unfold count. rewrite filter_app, length_app. reflexivity. Qed.

Lemma count_cons p e (t : list event) :
  count p (e :: t) = (if p e then 1 else 0) + count p t.
Proof. unfold count. cbn [filter]. destruct (p e); reflexivity. Qed.

Lemma count_repolls_hit p e n :
  p e = true -> p (Sleep 1) = false -> count p (repolls e n) = n.
Proof.
  intros He Hs. unfold count. induction n as [|n IH]; [reflexivity|].
  cbn [repolls filter]. rewrite Hs, He. cbn [length]. rewrite IH. reflexivity.
Qed.

Lemma count_repolls_miss p e n :
  p e = false -> p (Sleep 1) = false -> count p (repolls e n) = 0.
Proof.
  intros He Hs. unfold count. induction n as [|n IH]; [reflexivity|].
  cbn [repolls filter]. rewrite Hs, He. exact IH.
Qed.

Lemma prologue_no_fetch c a t query :
  count is_fetch (prologue loaded c a t query) = 0.
Proof. reflexivity. Qed.

Lemma prologue_no_poll c a t query :
  count is_poll (prologue loaded c a t query) = 0.
Proof. reflexivity. Qed.

(** [search] on a scenario whose polls are answered by statuses that
    are not terminal and then by [completed] or by [failed]: the loop
    stops there, the messages are fetched, their [data] is returned. *)
Lemma search_terminal c query ra rt rm rr pre last rf rest a t mb rid s data :
  reply_field ra "id" = inr a ->
  reply_field rt "id" = inr t ->
  response_json rm = inr mb ->
  reply_field rr "id" = inr rid ->
  forallb nonterminal pre = true ->
  status_of last = inr s ->
  in_strs s ["completed"; "failed"] = true ->
  reply_field rf "data" = inr data ->
  search loaded query (start c (ra :: rt :: rm :: rr :: pre ++ last :: rf :: rest))
  = (Ret data,
     mkWorld (after_init c a t) rest
       (prologue loaded c a t query
        ++ poll_call c t rid :: repolls (poll_call c t rid) (length pre)
        ++ [fetch_call c t])).
Proof.
  intros Ha Ht Hm Hr Hpre Hs Hin Hdata.
  destruct (search_prologue c query _ _ _ _ _ _ _ _ (pre ++ last :: rf :: rest) Ha Ht Hm Hr)
    as (rrb & Hid & ->).
  destruct (reply_field_inv _ _ _ Hs) as (lc & lb & -> & Hs').
  destruct (reply_field_inv _ _ _ Hdata) as (fc & fb & -> & Hdata').
  rewrite (first_poll_then_loop _ rrb rid (after_init c a t) t lc lb _ pre _ eq_refl Hid Hpre).
  rewrite (bind_ret _ _ _ _ _ (poll_loop_done _ _ _ _ _ Hs' Hin)).
  unfold _get_response, _get, send, bind, get_self, emit, await. simpl.
  rewrite Hdata'. reflexivity.
Qed.

(** C5. For every sequence of poll statuses that ends in [completed],
    with no [completed], [failed] or [incomplete] before, [search]
    returns the [data] of the fetched message list; the trace holds
    exactly one fetch, which is its last event, after every poll. *)
Theorem search_completed_fetches_once_after_last_poll
    c query ra rt rm rr pre last rf rest a t mb rid data :
  reply_field ra "id" = inr a ->
  reply_field rt "id" = inr t ->
  response_json rm = inr mb ->
  reply_field rr "id" = inr rid ->
  forallb nonterminal pre = true ->
  status_of last = inr (JStr "completed") ->
  reply_field rf "data" = inr data ->
  exists final before,
    search loaded query (start c (ra :: rt :: rm :: rr :: pre ++ last :: rf :: rest))
    = (Ret data, final) /\
    trace final = before ++ [fetch_call c t] /\
    is_fetch (fetch_call c t) = true /\
    count is_fetch before = 0 /\
    count is_poll before = S (length pre) /\
    count is_fetch (trace final) = 1.
Proof.
  intros Ha Ht Hm Hr Hpre Hs Hdata.
  eexists. exists (prologue loaded c a t query
                   ++ poll_call c t rid :: repolls (poll_call c t rid) (length pre)).
  split; [|split; [|split; [|split; [|split]]]].
  - apply (search_terminal c query ra rt rm rr pre last rf rest a t mb rid
             (JStr "completed") data); trivial.
  - cbn [trace]. rewrite <- app_assoc. reflexivity.
  - reflexivity.
  - rewrite count_app, prologue_no_fetch.
    rewrite count_cons, count_repolls_miss by reflexivity. reflexivity.
  - rewrite count_app, prologue_no_poll.
    rewrite count_cons, count_repolls_hit by reflexivity. reflexivity.
  - cbn [trace]. rewrite count_app, prologue_no_fetch.
    rewrite count_cons, count_app, count_repolls_miss by reflexivity. reflexivity.
Qed.

(** The requests and sleeps of [search] when the polls are answered by
    statuses that are not terminal and then by [completed] or by
    [failed], whatever follows in the scenario. *)
Lemma search_terminal_trace c query ra rt rm rr pre last after a t mb rid s :
  reply_field ra "id" = inr a ->
  reply_field rt "id" = inr t ->
  response_json rm = inr mb ->
  reply_field rr "id" = inr rid ->
  forallb nonterminal pre = true ->
  status_of last = inr s ->
  in_strs s ["completed"; "failed"] = true ->
  trace (snd (search loaded query (start c (ra :: rt :: rm :: rr :: pre ++ last :: after))))
  = prologue loaded c a t query
    ++ poll_call c t rid :: repolls (poll_call c t rid) (length pre)
    ++ [fetch_call c t].
Proof.
  intros Ha Ht Hm Hr Hpre Hs Hin.
  destruct (search_prologue c query _ _ _ _ _ _ _ _ (pre ++ last :: after) Ha Ht Hm Hr)
    as (rrb & Hid & ->).
  destruct (reply_field_inv _ _ _ Hs) as (lc & lb & -> & Hs').
  rewrite (first_poll_then_loop _ rrb rid (after_init c a t) t lc lb _ pre _ eq_refl Hid Hpre).
  rewrite (bind_ret _ _ _ _ _ (poll_loop_done _ _ _ _ _ Hs' Hin)).
  unfold _get_response, _get, send, bind, get_self, emit, await. simpl.
  destruct after as [|[fc [fb|]|what] rest]; simpl; try reflexivity.
  destruct (subscript fb "data"); reflexivity.
Qed.

(** C1, as the code has it.  For every sequence of poll statuses whose
    first terminal status is [failed], [search] raises nothing: it
    leaves the loop as it does on [completed], fetches the message list
    once and returns its [data].  The fetch is the last event of the
    trace: it comes after every poll, the last of which is the one
    answered [failed]. *)
Theorem search_failed_returns_fetched
    c query ra rt rm rr pre last rf rest a t mb rid data :
  reply_field ra "id" = inr a ->
  reply_field rt "id" = inr t ->
  response_json rm = inr mb ->
  reply_field rr "id" = inr rid ->
  forallb nonterminal pre = true ->
  status_of last = inr (JStr "failed") ->
  reply_field rf "data" = inr data ->
  exists final,
    search loaded query (start c (ra :: rt :: rm :: rr :: pre ++ last :: rf :: rest))
    = (Ret data, final) /\
    count is_fetch (trace final) = 1 /\
    count is_poll (trace final) = S (length pre) /\
    exists before,
      trace final = before ++ [fetch_call c t] /\
      is_fetch (fetch_call c t) = true /\
      before = prologue loaded c a t query
               ++ poll_call c t rid :: repolls (poll_call c t rid) (length pre) /\
      count is_fetch before = 0 /\
      count is_poll before = S (length pre) /\
      replies final = rest.
Proof.
  intros Ha Ht Hm Hr Hpre Hs Hdata.
  eexists. split; [|split; [|split]].
  - apply (search_terminal c query ra rt rm rr pre last rf rest a t mb rid
             (JStr "failed") data); trivial.
  - cbn [trace]. rewrite count_app, prologue_no_fetch.
    rewrite count_cons, count_app, count_repolls_miss by reflexivity. reflexivity.
  - cbn [trace]. rewrite count_app, prologue_no_poll.
    rewrite count_cons, count_app, count_repolls_hit by reflexivity.
    cbn. lia.
  - exists (prologue loaded c a t query
            ++ poll_call c t rid :: repolls (poll_call c t rid) (length pre)).
    cbn [trace replies]. split; [|split; [|split; [|split; [|split]]]].
    + rewrite <- app_assoc. reflexivity.
    + reflexivity.
    + reflexivity.
    + rewrite count_app, prologue_no_fetch.
      rewrite count_cons, count_repolls_miss by reflexivity. reflexivity.
    + rewrite count_app, prologue_no_poll.
      rewrite count_cons, count_repolls_hit by reflexivity. reflexivity.
    + reflexivity.
Qed.

(** C3. For every sequence of poll statuses in which [incomplete] comes
    before any [completed] or [failed], [search] raises an exception
    whose message holds the [incomplete_details] of that very reply,
    and no message fetch is made. *)
Theorem search_incomplete_raises_with_details
    c query ra rt rm rr pre last rest a t mb rid details :
  reply_field ra "id" = inr a ->
  reply_field rt "id" = inr t ->
  response_json rm = inr mb ->
  reply_field rr "id" = inr rid ->
  forallb nonterminal pre = true ->
  status_of last = inr (JStr "incomplete") ->
  reply_field last "incomplete_details" = inr details ->
  exists final,
    search loaded query (start c (ra :: rt :: rm :: rr :: pre ++ last :: rest))
    = (Raise (Exception [Lit "Run is incomplete. details:"; Val details]), final) /\
    count is_fetch (trace final) = 0 /\
    count is_poll (trace final) = S (length pre) /\
    replies final = rest.
Proof.
  intros Ha Ht Hm Hr Hpre Hs Hd.
  destruct (search_prologue c query _ _ _ _ _ _ _ _ (pre ++ last :: rest) Ha Ht Hm Hr)
    as (rrb & Hid & ->).
  destruct (reply_field_inv _ _ _ Hs) as (lc & lb & -> & Hs').
  unfold reply_field in Hd. cbn [response_json] in Hd.
  rewrite (first_poll_then_loop _ rrb rid (after_init c a t) t lc lb _ pre _ eq_refl Hid Hpre).
  rewrite (bind_raise _ _ _ _ _ (poll_loop_incomplete _ _ _ _ _ Hs' Hd)).
  eexists. split; [reflexivity|]. cbn [trace replies]. split; [|split].
  - rewrite count_app, prologue_no_fetch.
    rewrite count_cons, count_repolls_miss by reflexivity. reflexivity.
  - rewrite count_app, prologue_no_poll.
    rewrite count_cons, count_repolls_hit by reflexivity. reflexivity.
  - reflexivity.
Qed.

(** C6. When the successive polls are answered [queued], [in_progress],
    [completed], [search] makes after its opening requests a poll, then
    twice a sleep of one second and a poll, then the message fetch:
    three polls in all and one fetch. *)
Theorem search_queued_in_progress_completed
    c query ra rt rm rr p1 p2 p3 after a t mb rid :
  reply_field ra "id" = inr a ->
  reply_field rt "id" = inr t ->
  response_json rm = inr mb ->
  reply_field rr "id" = inr rid ->
  status_of p1 = inr (JStr "queued") ->
  status_of p2 = inr (JStr "in_progress") ->
  status_of p3 = inr (JStr "completed") ->
  let events :=
    trace (snd (search loaded query
                  (start c (ra :: rt :: rm :: rr :: p1 :: p2 :: p3 :: after)))) in
  events = prologue loaded c a t query
           ++ [poll_call c t rid; Sleep 1; poll_call c t rid; Sleep 1; poll_call c t rid;
               fetch_call c t] /\
  count is_poll events = 3 /\
  count is_fetch events = 1 /\
  count is_sleep events = 2.
Proof.
  intros Ha Ht Hm Hr H1 H2 H3 events.
  assert (E : events = prologue loaded c a t query
           ++ [poll_call c t rid; Sleep 1; poll_call c t rid; Sleep 1; poll_call c t rid;
               fetch_call c t]).
  { subst events.
    apply (search_terminal_trace c query ra rt rm rr [p1; p2] p3 after a t mb rid
             (JStr "completed")); trivial.
    unfold nonterminal. cbn [forallb]. rewrite H1, H2. reflexivity. }
  rewrite E. repeat split; reflexivity.
Qed.

End PollLoop.

(** * What [search] leaves alone *)

Create HintDb quiet.

Lemma quiet_now {A} (m : M A) :
  (forall w, snd (m w) = w) -> quiet m.
Proof.
  intros H w. rewrite H. split; [reflexivity|].
  exists []. rewrite app_nil_r. split; reflexivity.
Qed.

Lemma quiet_bind {A B} (m : M A) (f : A -> M B) :
  quiet m -> (forall a, quiet (f a)) -> quiet (bind m f).
Proof.
  intros Hm Hf w. unfold bind. destruct (Hm w) as (Hs & t1 & Ht & Hc).
  destruct (m w) as [[a|e|] w1]; cbn [snd] in *; eauto.
  destruct (Hf a w1) as (Hs' & t2 & Ht' & Hc'). split; [congruence|].
  exists (t1 ++ t2). rewrite Ht', Ht, app_assoc, count_app, Hc, Hc'.
  split; reflexivity.
Qed.

Lemma quiet_ret {A} (a : A) : quiet (ret a).
Proof. apply quiet_now. reflexivity. Qed.

Lemma quiet_raise {A} e : quiet (@raise A e).
Proof. apply quiet_now. reflexivity. Qed.

Lemma quiet_pending {A} : quiet (@pending A).
Proof. apply quiet_now. reflexivity. Qed.

Lemma quiet_eval {A} (r : exn + A) : quiet (eval r).
Proof. apply quiet_now. destruct r; reflexivity. Qed.

Lemma quiet_get_self : quiet get_self.
Proof. apply quiet_now. reflexivity. Qed.

Lemma quiet_remaining : quiet remaining.
Proof. apply quiet_now. reflexivity. Qed.

Lemma quiet_emit e : is_delete e = false -> quiet (emit e).
Proof.
  intros He w. split; [reflexivity|]. exists [e]. split; [reflexivity|].
  unfold count. cbn [filter]. rewrite He. reflexivity.
Qed.

Lemma quiet_await : quiet await.
Proof.
  intros w. unfold await. destruct (replies w); cbn [snd self trace].
  all: split; [reflexivity|]; exists []; rewrite app_nil_r; split; reflexivity.
Qed.

Lemma quiet_abandon : quiet abandon.
Proof.
  intros w. split; [reflexivity|]. exists []. cbn. rewrite app_nil_r.
  split; reflexivity.
Qed.

#[global] Hint Resolve quiet_ret quiet_raise quiet_pending quiet_eval quiet_get_self
  quiet_remaining quiet_await quiet_abandon : quiet.

Ltac quiet_steps :=
  repeat first
    [ apply quiet_bind; [|intros ?]
    | solve [auto with quiet]
    | apply quiet_emit; reflexivity
    | match goal with
      | |- quiet (if ?b then _ else _) => destruct b
      | |- quiet (match ?r with inl _ => _ | inr _ => _ end) => destruct r
      end ].

Lemma quiet_post url data : quiet (_post url data).
Proof. unfold _post, send. quiet_steps. Qed.

Lemma quiet_get url : quiet (_get url).
Proof. unfold _get, send. quiet_steps. Qed.

Lemma quiet_status_run tid rid : quiet (_status_run tid rid).
Proof. unfold _status_run. pose proof quiet_get. quiet_steps. Qed.

Lemma quiet_poll_loop fuel rr cur : quiet (poll_loop fuel rr cur).
Proof.
  revert cur. induction fuel as [|fuel IH]; intros cur; cbn [poll_loop].
  - apply quiet_pending.
  - pose proof quiet_status_run. unfold sleep. quiet_steps.
Qed.

(** Once the identifiers are stored, [search] does not touch the client
    and deletes nothing. *)
Lemma quiet_search_after_init query : quiet (after_init_part query).
Proof.
  pose proof quiet_post. pose proof quiet_get. pose proof quiet_status_run.
  pose proof quiet_poll_loop.
  unfold after_init_part, _ask_to_thread, _runs, _get_response. quiet_steps.
Qed.

Section Acquisition.

Variable loaded : date.

(** The two requests of [init_agent_threads]. *)
Lemma init_agent_threads_trace c scenario :
  trace (snd (init_agent_threads loaded (start c scenario)))
  = [call c POST (assistants_url c) (Some (Dumped (agent_body loaded c)));
     call c POST (threads_url c) (Some (Text ""))].
Proof.
  unfold init_agent_threads, gather_create, send, abandon, bind, get_self, put_self,
    emit, await, start.
  simpl.
  destruct scenario as [|[sa [ba|]|wa] scenario]; simpl; try reflexivity.
  destruct scenario as [|[st [bt|]|wt] scenario]; simpl; try reflexivity.
  destruct (subscript ba "id"); simpl; try reflexivity.
  destruct (subscript bt "id"); reflexivity.
Qed.

(** [init_agent_threads] returns only when both replies carry an
    identifier, which it has then stored. *)
Lemma init_agent_threads_returns c scenario final :
  init_agent_threads loaded (start c scenario) = (Ret tt, final) ->
  exists ra rt rest a t,
    scenario = ra :: rt :: rest /\
    reply_field ra "id" = inr a /\ reply_field rt "id" = inr t /\
    self final = after_init c a t /\ replies final = rest.
Proof.
  unfold init_agent_threads, gather_create, send, abandon, bind, get_self, put_self,
    emit, await, start, reply_field.
  simpl.
  destruct scenario as [|[sa [ba|]|wa] scenario]; simpl; try discriminate.
  destruct scenario as [|[st [bt|]|wt] scenario]; simpl; try discriminate.
  destruct (subscript ba "id") as [e|a] eqn:Ea; simpl; try discriminate.
  destruct (subscript bt "id") as [e|t] eqn:Et; simpl; try discriminate.
  intros H. injection H as <-.
  exists (Response sa (Some ba)), (Response st (Some bt)), scenario, a, t.
  simpl. rewrite Ea, Et. repeat split.
Qed.

(** C7. [init_agent_threads] sends the two creation requests together,
    before it awaits either reply.  When the agent creation fails and the
    thread creation succeeds, it raises that failure; it stores no
    identifier and sends no [DELETE] for the thread that was created.  It
    returns only when both replies carry an identifier. *)
Theorem init_agent_threads_fails_without_rollback c ra rt rest e t :
  reply_field ra "id" = inl e ->
  reply_field rt "id" = inr t ->
  (exists final,
     init_agent_threads loaded (start c (ra :: rt :: rest)) = (Raise e, final) /\
     self final = c /\
     trace final
     = [call c POST (assistants_url c) (Some (Dumped (agent_body loaded c)));
        call c POST (threads_url c) (Some (Text ""))] /\
     count is_delete (trace final) = 0) /\
  (forall c' scenario final,
     init_agent_threads loaded (start c' scenario) = (Ret tt, final) ->
     exists ra' rt' rest' a' t',
       scenario = ra' :: rt' :: rest' /\
       reply_field ra' "id" = inr a' /\ reply_field rt' "id" = inr t' /\
       self final = after_init c' a' t' /\ replies final = rest').
Proof.
  intros Ha Ht. split; [|apply init_agent_threads_returns].
  destruct (reply_field_inv _ _ _ Ht) as (st & bt & -> & Ht').
  unfold reply_field in Ha.
  unfold init_agent_threads, gather_create, send, abandon, bind, get_self, put_self,
    emit, await, start.
  simpl.
  destruct ra as [sa [ba|]|wa]; simpl in *.
  - rewrite Ha. simpl. eexists. repeat split.
  - injection Ha as <-. eexists. repeat split.
  - injection Ha as <-. eexists. repeat split.
Qed.

Lemma init_agent_threads_config c scenario :
  same_config c (self (snd (init_agent_threads loaded (start c scenario)))).
Proof.
  unfold init_agent_threads, gather_create, send, abandon, bind, get_self, put_self,
    emit, await, start, same_config.
  simpl.
  destruct scenario as [|[sa [ba|]|wa] scenario]; simpl; try tauto.
  destruct scenario as [|[st [bt|]|wt] scenario]; simpl; try tauto.
  destruct (subscript ba "id"); simpl; try tauto.
  destruct (subscript bt "id"); simpl; tauto.
Qed.

(** Whatever the service answers, [search] changes no field of the
    client but the two identifiers, begins with the two creation
    requests and sends no [DELETE]. *)
Lemma search_frame c query scenario :
  same_config c (self (snd (search loaded query (start c scenario)))) /\
  (exists more,
     trace (snd (search loaded query (start c scenario)))
     = call c POST (assistants_url c) (Some (Dumped (agent_body loaded c)))
       :: call c POST (threads_url c) (Some (Text "")) :: more) /\
  count is_delete (trace (snd (search loaded query (start c scenario)))) = 0.
Proof.
  set (out := search loaded query (start c scenario)).
  pose proof (init_agent_threads_trace c scenario) as Ht.
  pose proof (init_agent_threads_config c scenario) as Hc.
  assert (E : out = bind (init_agent_threads loaded) (fun _ => after_init_part query)
                      (start c scenario)) by reflexivity.
  unfold bind in E.
  destruct (init_agent_threads loaded (start c scenario)) as [[[]|e|] w1];
    cbn [snd] in *; rewrite E; clear E out.
  - destruct (quiet_search_after_init query w1) as (Hq & added & Hadd & Hcnt).
    rewrite Hq, Hadd, Ht. split; [exact Hc|split].
    + eexists. reflexivity.
    + rewrite count_app, Hcnt. reflexivity.
  - cbn [snd]. rewrite Ht. split; [exact Hc|split; [eexists|]; reflexivity].
  - cbn [snd]. rewrite Ht. split; [exact Hc|split; [eexists|]; reflexivity].
Qed.

(** C10. [search] begins with the two creation requests; with the
    identifiers they return it overwrites [agent_id] and [thread_id],
    whatever the client held before, and whatever happens afterwards.
    No other field of the client changes, and no [DELETE] is sent: the
    identifiers held before are dropped, not deleted. *)
Theorem search_overwrites_identifiers c query ra rt rest a t :
  reply_field ra "id" = inr a ->
  reply_field rt "id" = inr t ->
  agent_id (self (snd (search loaded query (start c (ra :: rt :: rest))))) = a /\
  thread_id (self (snd (search loaded query (start c (ra :: rt :: rest))))) = t /\
  same_config c (self (snd (search loaded query (start c (ra :: rt :: rest))))) /\
  (exists more,
     trace (snd (search loaded query (start c (ra :: rt :: rest))))
     = call c POST (assistants_url c) (Some (Dumped (agent_body loaded c)))
       :: call c POST (threads_url c) (Some (Text "")) :: more) /\
  count is_delete (trace (snd (search loaded query (start c (ra :: rt :: rest))))) = 0.
Proof.
  intros Ha Ht.
  assert (Hself : self (snd (search loaded query (start c (ra :: rt :: rest))))
                  = after_init c a t).
  { destruct (reply_field_inv _ _ _ Ha) as (sa & ba & -> & Ha').
    destruct (reply_field_inv _ _ _ Ht) as (st & bt & -> & Ht').
    unfold search, start.
    rewrite (bind_ret _ _ _ _ _ (init_agent_threads_ok loaded c _ _ _ _ _ _ _ _ Ha' Ht')).
    change (self (snd (after_init_part query
                (mkWorld (after_init c a t) rest
                   ([] ++ [call c POST (assistants_url c) (Some (Dumped (agent_body loaded c)));
                           call c POST (threads_url c) (Some (Text ""))]))))
            = after_init c a t).
    destruct (quiet_search_after_init query
                (mkWorld (after_init c a t) rest
                   ([] ++ [call c POST (assistants_url c) (Some (Dumped (agent_body loaded c)));
                           call c POST (threads_url c) (Some (Text ""))])))
      as (Hq & _).
    exact Hq. }
  split; [rewrite Hself; reflexivity|].
  split; [rewrite Hself; reflexivity|].
  apply search_frame.
Qed.

End Acquisition.

(** * Teardown *)

Section Teardown.

Lemma delete_failed c url r e rest t0 :
  deletion_failure r = Some e ->
  _delete url (mkWorld c (r :: rest) t0)
  = (Raise e, mkWorld c rest (t0 ++ [call c DELETE url None])).
Proof.
  unfold deletion_failure, _delete, send, bind, get_self, emit, await. simpl.
  destruct r as [status body|what]; simpl.
  - destruct (Z.eqb status 200); simpl; [discriminate|].
    intros H. injection H as <-. reflexivity.
  - intros H. injection H as <-. reflexivity.
Qed.

(** [delete_agent_threads] does not assign to the client. *)
Lemma delete_agent_threads_keeps_self w :
  self (snd (delete_agent_threads w)) = self w.
Proof.
  destruct w as [c rs t0].
  unfold delete_agent_threads, _delete_agent, _delete_thread, _delete, send, bind,
    get_self, emit, await.
  simpl.
  destruct (truthy (agent_id c)); simpl.
  - destruct rs as [|[s1 b1|w1] rs]; simpl; try reflexivity.
    destruct (Z.eqb s1 200); simpl; try reflexivity.
    destruct (truthy (thread_id c)); simpl; try reflexivity.
    destruct rs as [|[s2 b2|w2] rs]; simpl; try reflexivity.
    destruct (Z.eqb s2 200); reflexivity.
  - destruct (truthy (thread_id c)); simpl; try reflexivity.
    destruct rs as [|[s2 b2|w2] rs]; simpl; try reflexivity.
    destruct (Z.eqb s2 200); reflexivity.
Qed.

(** With no identifier held, [delete_agent_threads] does nothing. *)
Lemma delete_agent_threads_nothing_held w :
  truthy (agent_id (self w)) = false ->
  truthy (thread_id (self w)) = false ->
  delete_agent_threads w = (Ret tt, w).
Proof.
  destruct w as [c rs t0]. cbn [self]. intros Ha Ht.
  unfold delete_agent_threads, bind, get_self. simpl. rewrite Ha. simpl.
  rewrite Ht. reflexivity.
Qed.

(** Both deletions, each answered 200. *)
Lemma delete_agent_threads_both c b1 b2 rest t0 :
  truthy (agent_id c) = true ->
  truthy (thread_id c) = true ->
  delete_agent_threads (mkWorld c (Response 200 b1 :: Response 200 b2 :: rest) t0)
  = (Ret tt, mkWorld c rest (t0 ++ [agent_delete c; thread_delete c])).
Proof.
  intros Ha Ht.
  unfold delete_agent_threads, _delete_agent, _delete_thread, _delete, send, bind,
    get_self, emit, await.
  simpl. rewrite Ha. simpl. rewrite Ht. simpl.
  rewrite <- app_assoc. reflexivity.
Qed.

(** The agent deletion fails: the exception leaves the method. *)
Lemma delete_agent_threads_agent_fails c r e rest t0 :
  truthy (agent_id c) = true ->
  deletion_failure r = Some e ->
  delete_agent_threads (mkWorld c (r :: rest) t0)
  = (Raise e, mkWorld c rest (t0 ++ [agent_delete c])).
Proof.
  intros Ha Hr.
  unfold delete_agent_threads, _delete_agent, _delete, send, bind, get_self, emit, await.
  simpl. rewrite Ha. simpl.
  destruct r as [status body|what]; simpl in *.
  - destruct (Z.eqb status 200); simpl; [discriminate|].
    injection Hr as <-. reflexivity.
  - injection Hr as <-. reflexivity.
Qed.

(** C4, as the code has it.  When both identifiers are held and the
    agent deletion fails, [delete_agent_threads] raises that failure and
    stops: the agent deletion is the only request, the thread deletion
    is not attempted.  The thread deletion is attempted when the agent
    deletion was answered 200. *)
Theorem delete_agent_threads_stops_at_first_failure c r e rest :
  truthy (agent_id c) = true ->
  truthy (thread_id c) = true ->
  deletion_failure r = Some e ->
  delete_agent_threads (start c (r :: rest))
  = (Raise e, mkWorld c rest [agent_delete c]) /\
  count is_thread_delete [agent_delete c] = 0 /\
  (forall body after,
     trace (snd (delete_agent_threads (start c (Response 200 body :: after))))
     = [agent_delete c; thread_delete c]).
Proof.
  intros Ha Ht Hr. split; [|split].
  - apply (delete_agent_threads_agent_fails c r e rest [] Ha Hr).
  - reflexivity.
  - intros body after.
    unfold delete_agent_threads, _delete_agent, _delete_thread, _delete, send, bind,
      get_self, emit, await, start.
    simpl. rewrite Ha. simpl. rewrite Ht. simpl.
    destruct after as [|[s2 b2|w2] after]; simpl; try reflexivity.
    destruct (Z.eqb s2 200); reflexivity.
Qed.

(** The agent deletion is answered 200 and the thread deletion fails:
    the exception leaves the method after both requests. *)
Lemma delete_agent_threads_thread_fails c b r e rest t0 :
  truthy (agent_id c) = true ->
  truthy (thread_id c) = true ->
  deletion_failure r = Some e ->
  delete_agent_threads (mkWorld c (Response 200 b :: r :: rest) t0)
  = (Raise e, mkWorld c rest (t0 ++ [agent_delete c; thread_delete c])).
Proof.
  intros Ha Ht Hr.
  unfold delete_agent_threads, _delete_agent, _delete_thread, _delete, send, bind,
    get_self, emit, await.
  simpl. rewrite Ha. simpl. rewrite Ht. simpl.
  destruct r as [status body|what]; simpl in *.
  - destruct (Z.eqb status 200); simpl; [discriminate|].
    injection Hr as <-. rewrite <- app_assoc. reflexivity.
  - injection Hr as <-. rewrite <- app_assoc. reflexivity.
Qed.

(** C8, as the code has it.  [delete_agent_threads] keeps the
    identifiers it has deleted, so a second call in a row sends the same
    two requests again: it returns if they are answered 200 once more,
    and raises if the service refuses one of them, the agent deletion
    (the thread deletion is then not sent) or, after the agent deletion
    was answered 200, the thread deletion.  With no identifier held the
    method sends nothing and returns. *)
Theorem delete_agent_threads_twice c b1 b2 r e rest :
  truthy (agent_id c) = true ->
  truthy (thread_id c) = true ->
  deletion_failure r = Some e ->
  (exists once,
     delete_agent_threads (start c (Response 200 b1 :: Response 200 b2 :: r :: rest))
     = (Ret tt, once) /\
     self once = c /\
     delete_agent_threads once
     = (Raise e, mkWorld c rest [agent_delete c; thread_delete c; agent_delete c])) /\
  (forall b3 b4 after,
     exists once,
       delete_agent_threads
         (start c (Response 200 b1 :: Response 200 b2 ::
                   Response 200 b3 :: Response 200 b4 :: after))
       = (Ret tt, once) /\
       delete_agent_threads once
       = (Ret tt, mkWorld c after [agent_delete c; thread_delete c;
                                   agent_delete c; thread_delete c])) /\
  (forall w,
     truthy (agent_id (self w)) = false ->
     truthy (thread_id (self w)) = false ->
     delete_agent_threads w = (Ret tt, w)) /\
  (forall b3 after,
     exists once,
       delete_agent_threads
         (start c (Response 200 b1 :: Response 200 b2 :: Response 200 b3 :: r :: after))
       = (Ret tt, once) /\
       self once = c /\
       delete_agent_threads once
       = (Raise e, mkWorld c after [agent_delete c; thread_delete c;
                                    agent_delete c; thread_delete c])) /\
  (forall r3 r4 after once,
     delete_agent_threads
       (start c (Response 200 b1 :: Response 200 b2 :: r3 :: r4 :: after))
     = (Ret tt, once) ->
     (fst (delete_agent_threads once) = Ret tt <->
      deletion_failure r3 = None /\ deletion_failure r4 = None)).
Proof.
  intros Ha Ht Hr. split; [|split; [|split; [|split]]].
  - eexists. split; [apply (delete_agent_threads_both c b1 b2 _ [] Ha Ht)|].
    split; [reflexivity|].
    exact (delete_agent_threads_agent_fails c r e rest
             ([] ++ [agent_delete c; thread_delete c]) Ha Hr).
  - intros b3 b4 after.
    eexists. split; [apply (delete_agent_threads_both c b1 b2 _ [] Ha Ht)|].
    exact (delete_agent_threads_both c b3 b4 after
             ([] ++ [agent_delete c; thread_delete c]) Ha Ht).
  - apply delete_agent_threads_nothing_held.
  - intros b3 after.
    eexists. split; [apply (delete_agent_threads_both c b1 b2 _ [] Ha Ht)|].
    split; [reflexivity|].
    exact (delete_agent_threads_thread_fails c b3 r e after
             ([] ++ [agent_delete c; thread_delete c]) Ha Ht Hr).
  - intros r3 r4 after once Honce. unfold start in Honce.
    rewrite (delete_agent_threads_both c b1 b2 _ [] Ha Ht) in Honce.
    injection Honce as <-.
    destruct (deletion_failure r3) as [e3|] eqn:E3.
    + rewrite (delete_agent_threads_agent_fails c r3 e3 (r4 :: after) _ Ha E3).
      cbn [fst]. split; [discriminate|]. intros [H _]. discriminate.
    + assert (exists b3, r3 = Response 200 b3) as [b3 ->].
      { destruct r3 as [s3 b3|w3]; cbn in E3; [|discriminate].
        destruct (Z.eqb_spec s3 200) as [->|]; [eauto|discriminate]. }
      destruct (deletion_failure r4) as [e4|] eqn:E4.
      * rewrite (delete_agent_threads_thread_fails c b3 r4 e4 after _ Ha Ht E4).
        cbn [fst]. split; [discriminate|]. intros [_ H]. discriminate.
      * assert (exists b4, r4 = Response 200 b4) as [b4 ->].
        { destruct r4 as [s4 b4|w4]; cbn in E4; [|discriminate].
          destruct (Z.eqb_spec s4 200) as [->|]; [eauto|discriminate]. }
        rewrite (delete_agent_threads_both c b3 b4 after _ Ha Ht).
        cbn [fst]. split; auto.
Qed.

End Teardown.

(** * Bulk deletion *)

Section BulkDeletion.

Lemma get_self_eq w : get_self w = (Ret (self w), w).
Proof. reflexivity. Qed.

(** A page whose [has_more] is false ends the loop before its items
    are looked at. *)
Lemma delete_all_loop_last_page fuel url delete_one page more w :
  subscript page "has_more" = inr more ->
  truthy more = false ->
  delete_all_loop (S fuel) url delete_one page w = (Ret tt, w).
Proof.
  intros Hm Hf. cbn [delete_all_loop].
  rewrite (bind_ret _ _ _ _ _ (eval_inr _ _ _ Hm)). rewrite Hf. reflexivity.
Qed.

(** The [for] loop over a page: one deletion per item, in order, when
    each is answered 200. *)
Lemma for_each_deletes (url_of : GroundingWithBingSearch -> json -> fstring) c :
  forall items ids bodies rest t0,
    Forall2 (fun it id => subscript it "id" = inr id) items ids ->
    length bodies = length ids ->
    for_each items (fun it =>
      item_id <- eval (subscript it "id") ;;
      c' <- get_self ;;
      _delete (url_of c' item_id))
      (mkWorld c (map (Response 200) bodies ++ rest) t0)
    = (Ret tt,
       mkWorld c rest (t0 ++ map (fun id => call c DELETE (url_of c id) None) ids)).
Proof.
  induction items as [|it items IH]; intros ids bodies rest t0 Hids Hlen.
  - inversion Hids; subst. destruct bodies; [|discriminate].
    simpl. rewrite app_nil_r. reflexivity.
  - inversion Hids as [|? id ? ids' Hid Hrest]; subst.
    destruct bodies as [|b bodies]; [discriminate|].
    cbn [for_each map app].
    unfold bind at 1 2 3. rewrite (eval_inr _ _ _ Hid).
    unfold get_self at 1. cbn [self]. rewrite delete_ok.
    rewrite (IH ids' bodies rest _ Hrest) by (simpl in Hlen; lia).
    rewrite <- app_assoc. reflexivity.
Qed.

(** A page whose [has_more] is true: its items are deleted, then the
    listing is fetched again. *)
Lemma delete_all_loop_full_page fuel url (url_of : GroundingWithBingSearch -> json -> fstring)
    page more data items ids bodies code next rest c t0 :
  subscript page "has_more" = inr more ->
  truthy more = true ->
  subscript page "data" = inr data ->
  iter data = inr items ->
  Forall2 (fun it id => subscript it "id" = inr id) items ids ->
  length bodies = length ids ->
  delete_all_loop (S fuel) url (fun id => c' <- get_self ;; _delete (url_of c' id)) page
    (mkWorld c (map (Response 200) bodies ++ Response code (Some next) :: rest) t0)
  = delete_all_loop fuel url (fun id => c' <- get_self ;; _delete (url_of c' id)) next
      (mkWorld c rest
         (t0 ++ map (fun id => call c DELETE (url_of c id) None) ids
             ++ [call c GET url None])).
Proof.
  intros Hm Ht Hd Hi Hids Hlen. cbn [delete_all_loop].
  rewrite (bind_ret _ _ _ _ _ (eval_inr _ _ _ Hm)). rewrite Ht.
  rewrite (bind_ret _ _ _ _ _ (eval_inr _ _ _ Hd)).
  rewrite (bind_ret _ _ _ _ _ (eval_inr _ _ _ Hi)).
  rewrite (bind_ret _ _ _ _ _ (for_each_deletes url_of c items ids bodies _ t0 Hids Hlen)).
  rewrite (bind_ret _ _ _ _ _ (eval_inr _ _ _ Hm)). rewrite Ht. cbn [negb].
  rewrite (bind_ret _ _ _ _ _ (get_ok _ _ _ _ _ _)).
  rewrite <- app_assoc. reflexivity.
Qed.

(** C2, where the code departs from it.  When the listing answers with
    [has_more] false, [_delete_all_threads] and [_delete_all_agents]
    return at once: the only request is the listing, nothing on the
    page is deleted. *)
Theorem delete_all_skips_page_without_more c code page more rest :
  subscript page "has_more" = inr more ->
  truthy more = false ->
  _delete_all_threads (start c (Response code (Some page) :: rest))
  = (Ret tt, mkWorld c rest [call c GET (threads_url c) None]) /\
  _delete_all_agents (start c (Response code (Some page) :: rest))
  = (Ret tt, mkWorld c rest [call c GET (assistants_url c) None]) /\
  count is_delete [call c GET (threads_url c) None] = 0 /\
  count is_delete [call c GET (assistants_url c) None] = 0.
Proof.
  intros Hm Hf. split; [|split; [|split; reflexivity]].
  - unfold _delete_all_threads, start.
    rewrite (bind_ret _ _ _ _ _ (get_self_eq _)). cbn [self].
    rewrite (bind_ret _ _ _ _ _ (get_ok _ _ _ _ _ _)).
    rewrite (bind_ret _ _ _ _ _ (remaining_eq _)).
    apply (delete_all_loop_last_page _ _ _ _ _ _ Hm Hf).
  - unfold _delete_all_agents, start.
    rewrite (bind_ret _ _ _ _ _ (get_self_eq _)). cbn [self].
    rewrite (bind_ret _ _ _ _ _ (get_ok _ _ _ _ _ _)).
    rewrite (bind_ret _ _ _ _ _ (remaining_eq _)).
    apply (delete_all_loop_last_page _ _ _ _ _ _ Hm Hf).
Qed.

End BulkDeletion.

(** * The fuel of the loops is enough *)

Section Fuel.

Lemma waits_bind {A B} (m : M A) (f : A -> M B) w :
  waits_for_replies_only m w ->
  (forall a w1, m w = (Ret a, w1) -> waits_for_replies_only (f a) w1) ->
  waits_for_replies_only (bind m f) w.
Proof.
  unfold waits_for_replies_only, bind. intros [Hlen Hp] Hf.
  destruct (m w) as [[a|e|] w1] eqn:E; cbn [fst snd] in *.
  - destruct (Hf a w1 eq_refl) as [Hlen' Hp']. split; [lia|exact Hp'].
  - split; [exact Hlen|discriminate].
  - split; [exact Hlen|intros _; apply Hp; reflexivity].
Qed.

Lemma waits_still {A} (m : M A) w :
  snd (m w) = w -> fst (m w) <> Pending -> waits_for_replies_only m w.
Proof.
  unfold waits_for_replies_only. intros -> Hp. split; [lia|contradiction].
Qed.

Lemma waits_eval {A} (r : exn + A) w : waits_for_replies_only (eval r) w.
Proof. destruct r; apply waits_still; simpl; congruence. Qed.

Lemma eval_ret_inv {A} (r : exn + A) w a w1 :
  eval r w = (Ret a, w1) -> w1 = w.
Proof. destruct r; unfold eval, ret, raise; congruence. Qed.

Lemma waits_get_self w : waits_for_replies_only get_self w.
Proof. apply waits_still; simpl; congruence. Qed.

Lemma waits_emit e w : waits_for_replies_only (emit e) w.
Proof. split; simpl; [lia|discriminate]. Qed.

Lemma waits_await w : waits_for_replies_only await w.
Proof.
  unfold waits_for_replies_only, await.
  destruct w as [c [|r rs] t0]; simpl; split; trivial; try lia; discriminate.
Qed.

Lemma waits_send m url data w : waits_for_replies_only (send m url data) w.
Proof.
  unfold send. apply waits_bind; [apply waits_get_self|].
  intros c w1 _. apply waits_emit.
Qed.

Lemma waits_get url w : waits_for_replies_only (_get url) w.
Proof.
  unfold _get. apply waits_bind; [apply waits_send|]. intros [] w1 _.
  apply waits_bind; [apply waits_await|]. intros r w2 _. apply waits_eval.
Qed.

Lemma waits_delete url w : waits_for_replies_only (_delete url) w.
Proof.
  unfold _delete. apply waits_bind; [apply waits_send|]. intros [] w1 _.
  apply waits_bind; [apply waits_await|]. intros r w2 _.
  destruct r as [status body|what].
  - destruct (negb (Z.eqb status 200)); apply waits_still; simpl; congruence.
  - apply waits_still; simpl; congruence.
Qed.

(** A request that is answered has taken its reply from the scenario. *)
Lemma get_takes_a_reply url w v w1 :
  _get url w = (Ret v, w1) -> S (length (replies w1)) = length (replies w).
Proof.
  destruct w as [c rs t0].
  unfold _get, send, bind, get_self, emit, await. simpl.
  destruct rs as [|[status [body|]|what] rs]; simpl; try discriminate.
  intros H. injection H as _ <-. reflexivity.
Qed.

(** The poll loop of [search] never stops for lack of fuel. *)
Lemma poll_loop_fuel fuel rr cur w :
  length (replies w) < fuel ->
  waits_for_replies_only (poll_loop fuel rr cur) w.
Proof.
  revert cur w. induction fuel as [|fuel IH]; intros cur w Hlen; [lia|].
  cbn [poll_loop].
  apply waits_bind; [apply waits_eval|]. intros st w1 E1.
  apply eval_ret_inv in E1. subst w1.
  destruct (negb (in_strs st ["completed"; "failed"]));
    [|apply waits_still; simpl; congruence].
  apply waits_bind; [apply waits_eval|]. intros st' w1 E2.
  apply eval_ret_inv in E2. subst w1.
  destruct (eq_str st' "incomplete").
  { apply waits_bind; [apply waits_eval|]. intros d w1 E3.
    apply waits_still; simpl; congruence. }
  apply waits_bind; [apply waits_emit|]. intros [] w1 E3.
  assert (replies w1 = replies w) as Hr1.
  { unfold sleep, emit in E3. injection E3 as <-. reflexivity. }
  apply waits_bind; [apply waits_get_self|]. intros c w2 E4.
  assert (w2 = w1) as -> by (unfold get_self in E4; congruence).
  apply waits_bind; [apply waits_eval|]. intros rid w2 E5.
  apply eval_ret_inv in E5. subst w2.
  unfold _status_run.
  apply waits_bind.
  { apply waits_bind; [apply waits_get_self|]. intros. apply waits_get. }
  intros next w2 E6. apply IH.
  unfold bind, get_self in E6. cbv beta iota in E6.
  apply get_takes_a_reply in E6. rewrite Hr1 in E6. lia.
Qed.

Lemma for_each_waits {A} (body : A -> M unit) :
  (forall a w, waits_for_replies_only (body a) w) ->
  forall items w, waits_for_replies_only (for_each items body) w.
Proof.
  intros Hb. induction items as [|a items IH]; intros w; cbn [for_each].
  - apply waits_still; simpl; congruence.
  - apply waits_bind; [apply Hb|]. intros. apply IH.
Qed.

(** Nor does the loop of the bulk deletions. *)
Lemma delete_all_loop_fuel fuel url delete_one results w :
  (forall id w', waits_for_replies_only (delete_one id) w') ->
  length (replies w) < fuel ->
  waits_for_replies_only (delete_all_loop fuel url delete_one results) w.
Proof.
  intros Hd. revert results w.
  induction fuel as [|fuel IH]; intros results w Hlen; [lia|].
  cbn [delete_all_loop].
  apply waits_bind; [apply waits_eval|]. intros more w1 E1.
  apply eval_ret_inv in E1. subst w1.
  destruct (truthy more); [|apply waits_still; simpl; congruence].
  apply waits_bind; [apply waits_eval|]. intros data w1 E2.
  apply eval_ret_inv in E2. subst w1.
  apply waits_bind; [apply waits_eval|]. intros items w1 E3.
  apply eval_ret_inv in E3. subst w1.
  assert (Hfe : forall w', waits_for_replies_only
            (for_each items (fun item =>
               item_id <- eval (subscript item "id") ;; delete_one item_id)) w').
  { apply for_each_waits. intros a w'.
    apply waits_bind; [apply waits_eval|]. intros. apply Hd. }
  apply waits_bind; [apply Hfe|]. intros [] w1 E4.
  assert (Hl1 : length (replies w1) <= length (replies w)).
  { destruct (Hfe w) as [H _]. rewrite E4 in H. exact H. }
  apply waits_bind; [apply waits_eval|]. intros more' w2 E5.
  apply eval_ret_inv in E5. subst w2.
  destruct (negb (truthy more')); [apply waits_still; simpl; congruence|].
  apply waits_bind; [apply waits_get|]. intros results' w2 E6.
  apply IH. apply get_takes_a_reply in E6. lia.
Qed.


Lemma waits_post url data w : waits_for_replies_only (_post url data) w.
Proof.
  unfold _post. apply waits_bind; [apply waits_send|]. intros [] w1 _.
  apply waits_bind; [apply waits_await|]. intros r w2 _. apply waits_eval.
Qed.

Lemma waits_put_self c w : waits_for_replies_only (put_self c) w.
Proof. split; simpl; [lia|discriminate]. Qed.

Lemma waits_abandon w : waits_for_replies_only abandon w.
Proof.
  split; simpl; [|discriminate].
  destruct (replies w); simpl; lia.
Qed.

Lemma waits_init_agent_threads loaded w :
  waits_for_replies_only (init_agent_threads loaded) w.
Proof.
  unfold init_agent_threads, gather_create.
  apply waits_bind.
  { apply waits_bind; [apply waits_get_self|]. intros c w1 _.
    apply waits_bind; [apply waits_eval|]. intros data w2 _.
    apply waits_bind; [apply waits_send|]. intros [] w3 _.
    apply waits_bind; [apply waits_send|]. intros [] w4 _.
    apply waits_bind; [apply waits_await|]. intros ra w5 _.
    destruct (response_json ra).
    - apply waits_bind; [apply waits_abandon|]. intros [] w6 _.
      apply waits_still; simpl; congruence.
    - apply waits_bind; [apply waits_await|]. intros rt w6 _.
      apply waits_bind; [apply waits_eval|]. intros t w7 _.
      apply waits_still; simpl; congruence. }
  intros results w1 _.
  apply waits_bind; [apply waits_eval|]. intros a w2 _.
  apply waits_bind; [apply waits_get_self|]. intros c w3 _.
  apply waits_bind; [apply waits_put_self|]. intros [] w4 _.
  apply waits_bind; [apply waits_eval|]. intros t w5 _.
  apply waits_bind; [apply waits_get_self|]. intros c' w6 _.
  apply waits_put_self.
Qed.

(** [search] is left pending only when the scenario has no reply left
    for the request it has sent: its loop never lacks fuel. *)
Lemma search_waits loaded query w :
  waits_for_replies_only (search loaded query) w.
Proof.
  unfold search.
  apply waits_bind; [apply waits_init_agent_threads|]. intros [] w1 _.
  apply waits_bind; [apply waits_get_self|]. intros c w2 _.
  apply waits_bind.
  { unfold _ask_to_thread. apply waits_bind; [apply waits_get_self|].
    intros. apply waits_post. }
  intros m w3 _.
  apply waits_bind; [apply waits_get_self|]. intros c1 w4 _.
  apply waits_bind.
  { unfold _runs. apply waits_bind; [apply waits_get_self|].
    intros. apply waits_post. }
  intros rr w5 _.
  apply waits_bind; [apply waits_get_self|]. intros c2 w6 _.
  apply waits_bind; [apply waits_eval|]. intros rid w7 _.
  apply waits_bind.
  { unfold _status_run. apply waits_bind; [apply waits_get_self|].
    intros. apply waits_get. }
  intros cur w8 _.
  apply waits_bind; [apply waits_still; simpl; congruence|]. intros n w9 E.
  rewrite remaining_eq in E. injection E as <- <-.
  apply waits_bind; [apply poll_loop_fuel; lia|]. intros last w10 _.
  apply waits_bind; [apply waits_get_self|]. intros c3 w11 _.
  apply waits_bind.
  { unfold _get_response. apply waits_bind; [apply waits_get_self|].
    intros. apply waits_get. }
  intros resp w12 _. apply waits_eval.
Qed.

(** So are the bulk deletions. *)
Lemma delete_all_waits w :
  waits_for_replies_only _delete_all_threads w /\
  waits_for_replies_only _delete_all_agents w.
Proof.
  split.
  - unfold _delete_all_threads.
    apply waits_bind; [apply waits_get_self|]. intros c w1 _.
    apply waits_bind; [apply waits_get|]. intros results w2 _.
    apply waits_bind; [apply waits_still; simpl; congruence|]. intros n w3 E.
    rewrite remaining_eq in E. injection E as <- <-.
    apply delete_all_loop_fuel; [|lia].
    intros id w'. unfold _delete_thread.
    apply waits_bind; [apply waits_get_self|]. intros. apply waits_delete.
  - unfold _delete_all_agents.
    apply waits_bind; [apply waits_get_self|]. intros c w1 _.
    apply waits_bind; [apply waits_get|]. intros results w2 _.
    apply waits_bind; [apply waits_still; simpl; congruence|]. intros n w3 E.
    rewrite remaining_eq in E. injection E as <- <-.
    apply delete_all_loop_fuel; [|lia].
    intros id w'. unfold _delete_agent.
    apply waits_bind; [apply waits_get_self|]. intros. apply waits_delete.
Qed.

End Fuel.

(** * The body of the agent-creation request *)

Section RequestBody.

Example minus_three_days_in_month :
  strftime_Ymd (minus_days (mkDate 2025 1 10) 3) = "2025-01-07".
Proof. reflexivity. Qed.

Example minus_three_days_over_february :
  strftime_Ymd (minus_days (mkDate 2024 3 2) 3) = "2024-02-28" /\
  strftime_Ymd (minus_days (mkDate 2025 3 2) 3) = "2025-02-27".
Proof. split; reflexivity. Qed.

Example minus_three_days_over_new_year :
  strftime_Ymd (minus_days (mkDate 2025 1 1) 3) = "2024-12-29".
Proof. reflexivity. Qed.

(** [_create_agent] posts the dumped request, whatever is answered. *)
Lemma create_agent_sends_body loaded c scenario :
  first_body (trace (snd (_create_agent loaded (start c scenario))))
  = Some (agent_body loaded c).
Proof. destruct scenario as [|[status [body|]|what] rest]; reflexivity. Qed.

(** The tool configuration of the request: the connection of the
    client, the defaults of the model, and the freshness computed in
    the class body. *)
Lemma tool_configuration_defaults loaded c :
  tool_configuration (agent_body loaded c)
  = inr (JObj [("connection_id", JStr (connection_id c));
               ("count", JNum 7);
               ("market", JStr "en-US");
               ("set_lang", JStr "en");
               ("freshness", JStr (strftime_Ymd (minus_days loaded 3)))]).
Proof. reflexivity. Qed.

(** C9, where the code departs from it.  The freshness of a request is
    three days before the import of the module, not before the request:
    in a process that imported the module on 2025-01-10, a request made
    on 2025-01-12 carries 2025-01-07, and three days before that
    request is 2025-01-09.  The connection and the other defaults are
    the expected ones. *)
Theorem create_agent_freshness_fixed_at_import :
  first_body (trace (snd (_create_agent (mkDate 2025 1 10)
                            (start Demo.client [Demo.created "asst_1"]))))
  = Some (agent_body (mkDate 2025 1 10) Demo.client) /\
  tool_configuration (agent_body (mkDate 2025 1 10) Demo.client)
  = inr (JObj [("connection_id", JStr "bing-connection");
               ("count", JNum 7);
               ("market", JStr "en-US");
               ("set_lang", JStr "en");
               ("freshness", JStr "2025-01-07")]) /\
  strftime_Ymd (minus_days (mkDate 2025 1 12) 3) = "2025-01-09".
Proof. repeat split. Qed.

End RequestBody.

(** * The theorems at sample scenarios *)

Lemma search_completed_fetches_once_after_last_poll_witness :
  exists final before,
    search Demo.today "news"
      (start Demo.client
         (Demo.opening ++ [Demo.run "queued"; Demo.run "completed"; Demo.messages]))
    = (Ret Demo.answer, final) /\
    trace final = before ++ [fetch_call Demo.client (JStr "thread_1")] /\
    is_fetch (fetch_call Demo.client (JStr "thread_1")) = true /\
    count is_fetch before = 0 /\
    count is_poll before = 2 /\
    count is_fetch (trace final) = 1.
Proof.
  apply (search_completed_fetches_once_after_last_poll Demo.today Demo.client "news"
           (Demo.created "asst_1") (Demo.created "thread_1") (Demo.created "msg_1")
           (Demo.run "queued") [Demo.run "queued"] (Demo.run "completed")
           Demo.messages [] (JStr "asst_1") (JStr "thread_1")
           (JObj [("id", JStr "msg_1")]) (JStr "run_1") Demo.answer);
    reflexivity.
Defined.

Lemma search_failed_returns_fetched_witness :
  exists final,
    search Demo.today "news"
      (start Demo.client
         (Demo.opening ++ [Demo.run "in_progress"; Demo.run "failed"; Demo.messages]))
    = (Ret Demo.answer, final) /\
    count is_fetch (trace final) = 1 /\
    count is_poll (trace final) = 2 /\
    exists before,
      trace final = before ++ [fetch_call Demo.client (JStr "thread_1")] /\
      is_fetch (fetch_call Demo.client (JStr "thread_1")) = true /\
      before = prologue Demo.today Demo.client (JStr "asst_1") (JStr "thread_1") "news"
               ++ poll_call Demo.client (JStr "thread_1") (JStr "run_1")
               :: repolls (poll_call Demo.client (JStr "thread_1") (JStr "run_1")) 1 /\
      count is_fetch before = 0 /\
      count is_poll before = 2 /\
      replies final = [].
Proof.
  apply (search_failed_returns_fetched Demo.today Demo.client "news"
           (Demo.created "asst_1") (Demo.created "thread_1") (Demo.created "msg_1")
           (Demo.run "queued") [Demo.run "in_progress"] (Demo.run "failed")
           Demo.messages [] (JStr "asst_1") (JStr "thread_1")
           (JObj [("id", JStr "msg_1")]) (JStr "run_1") Demo.answer);
    reflexivity.
Defined.

(** C1 at a sample scenario: the one poll is answered [failed], and
    [search] neither raises nor goes without a fetch. *)
Lemma search_failed_counterexample :
  status_of (Demo.run "failed") = inr (JStr "failed") /\
  ~ (raised (search Demo.today "news"
               (start Demo.client (Demo.opening ++ [Demo.run "failed"; Demo.messages])))
     /\ count is_fetch
          (trace (snd (search Demo.today "news"
                         (start Demo.client
                            (Demo.opening ++ [Demo.run "failed"; Demo.messages])))))
        = 0).
Proof.
  split; [reflexivity|]. intros [_ H]. vm_compute in H. discriminate.
Qed.

Lemma search_incomplete_raises_with_details_witness :
  exists final,
    search Demo.today "news"
      (start Demo.client (Demo.opening ++ [Demo.run "queued"; Demo.incomplete_run]))
    = (Raise (Exception [Lit "Run is incomplete. details:";
                         Val (JObj [("reason", JStr "X")])]), final) /\
    count is_fetch (trace final) = 0 /\
    count is_poll (trace final) = 2 /\
    replies final = [].
Proof.
  apply (search_incomplete_raises_with_details Demo.today Demo.client "news"
           (Demo.created "asst_1") (Demo.created "thread_1") (Demo.created "msg_1")
           (Demo.run "queued") [Demo.run "queued"] Demo.incomplete_run []
           (JStr "asst_1") (JStr "thread_1") (JObj [("id", JStr "msg_1")])
           (JStr "run_1") (JObj [("reason", JStr "X")]));
    reflexivity.
Defined.

Lemma search_queued_in_progress_completed_witness :
  count is_poll
    (trace (snd (search Demo.today "news"
                   (start Demo.client
                      (Demo.opening ++ [Demo.run "queued"; Demo.run "in_progress";
                                        Demo.run "completed"; Demo.messages])))))
  = 3 /\
  count is_fetch
    (trace (snd (search Demo.today "news"
                   (start Demo.client
                      (Demo.opening ++ [Demo.run "queued"; Demo.run "in_progress";
                                        Demo.run "completed"; Demo.messages])))))
  = 1.
Proof.
  destruct (search_queued_in_progress_completed Demo.today Demo.client "news"
              (Demo.created "asst_1") (Demo.created "thread_1") (Demo.created "msg_1")
              (Demo.run "queued") (Demo.run "queued") (Demo.run "in_progress")
              (Demo.run "completed") [Demo.messages]
              (JStr "asst_1") (JStr "thread_1") (JObj [("id", JStr "msg_1")])
              (JStr "run_1") eq_refl eq_refl eq_refl eq_refl eq_refl eq_refl eq_refl)
    as (_ & Hpolls & Hfetches & _).
  split; [exact Hpolls|exact Hfetches].
Defined.

Lemma init_agent_threads_fails_without_rollback_witness :
  exists final,
    init_agent_threads Demo.today
      (start Demo.client
         [Response 500 (Some (JObj [("error", JStr "server_error")]));
          Demo.created "thread_1"])
    = (Raise (KeyError "id"), final) /\
    self final = Demo.client /\
    count is_delete (trace final) = 0.
Proof.
  destruct (init_agent_threads_fails_without_rollback Demo.today Demo.client
              (Response 500 (Some (JObj [("error", JStr "server_error")])))
              (Demo.created "thread_1") [] (KeyError "id") (JStr "thread_1")
              eq_refl eq_refl)
    as [(final & Hrun & Hself & _ & Hdel) _].
  exists final. repeat split; assumption.
Defined.

Lemma search_overwrites_identifiers_witness :
  agent_id (self (snd (search Demo.today "news"
                         (start Samples.holding
                            [Demo.created "asst_2"; Demo.created "thread_2"]))))
  = JStr "asst_2" /\
  thread_id (self (snd (search Demo.today "news"
                          (start Samples.holding
                             [Demo.created "asst_2"; Demo.created "thread_2"]))))
  = JStr "thread_2" /\
  count is_delete
    (trace (snd (search Demo.today "news"
                   (start Samples.holding
                      [Demo.created "asst_2"; Demo.created "thread_2"]))))
  = 0.
Proof.
  destruct (search_overwrites_identifiers Demo.today Samples.holding "news"
              (Demo.created "asst_2") (Demo.created "thread_2") []
              (JStr "asst_2") (JStr "thread_2") eq_refl eq_refl)
    as (Ha & Ht & _ & _ & Hd).
  repeat split; assumption.
Defined.

Lemma delete_agent_threads_stops_at_first_failure_witness :
  delete_agent_threads (start Samples.holding [Response 500 None; Response 200 None])
  = (Raise (Exception [Lit "Failed to delete: "; Val (JNum 500)]),
     mkWorld Samples.holding [Response 200 None] [agent_delete Samples.holding]).
Proof.
  apply (delete_agent_threads_stops_at_first_failure Samples.holding
           (Response 500 None) _ [Response 200 None] eq_refl eq_refl eq_refl).
Defined.

(** C4 at a sample scenario: the agent deletion is refused, and no
    request for the thread deletion follows. *)
Lemma delete_agent_threads_counterexample :
  deletion_failure (Response 500 None) <> None /\
  ~ (0 < count is_thread_delete
           (trace (snd (delete_agent_threads
                          (start Samples.holding
                             [Response 500 None; Response 200 None]))))).
Proof.
  split; [discriminate|]. vm_compute. lia.
Qed.

Lemma delete_agent_threads_twice_witness :
  (exists once,
     delete_agent_threads
       (start Samples.holding [Response 200 None; Response 200 None; Response 404 None])
     = (Ret tt, once) /\
     self once = Samples.holding /\
     delete_agent_threads once
     = (Raise (Exception [Lit "Failed to delete: "; Val (JNum 404)]),
        mkWorld Samples.holding []
          [agent_delete Samples.holding; thread_delete Samples.holding;
           agent_delete Samples.holding])) /\
  (exists once,
     delete_agent_threads
       (start Samples.holding
          [Response 200 None; Response 200 None; Response 200 None; Response 404 None])
     = (Ret tt, once) /\
     self once = Samples.holding /\
     delete_agent_threads once
     = (Raise (Exception [Lit "Failed to delete: "; Val (JNum 404)]),
        mkWorld Samples.holding []
          [agent_delete Samples.holding; thread_delete Samples.holding;
           agent_delete Samples.holding; thread_delete Samples.holding])).
Proof.
  destruct (delete_agent_threads_twice Samples.holding None None (Response 404 None)
              (Exception [Lit "Failed to delete: "; Val (JNum 404)]) []
              eq_refl eq_refl eq_refl)
    as (Hagent & _ & _ & Hthread & _).
  split; [exact Hagent|exact (Hthread None [])].
Defined.

(** C8 at a sample scenario: both deletions succeed, the service then
    answers 404 for what is gone, and the second call in a row raises. *)
Lemma delete_agent_threads_twice_counterexample :
  fst (delete_agent_threads
         (start Samples.holding
            [Response 200 None; Response 200 None; Response 404 None; Response 404 None]))
  = Ret tt /\
  ~ (fst (delete_agent_threads
            (snd (delete_agent_threads
                    (start Samples.holding
                       [Response 200 None; Response 200 None;
                        Response 404 None; Response 404 None]))))
     = Ret tt).
Proof.
  split; [reflexivity|]. vm_compute. discriminate.
Qed.

Lemma delete_all_skips_page_without_more_witness :
  _delete_all_threads (start Demo.client [Samples.page ["thread_1"] false])
  = (Ret tt, mkWorld Demo.client [] [call Demo.client GET (threads_url Demo.client) None])
  /\
  _delete_all_agents (start Demo.client [Samples.page ["thread_1"] false])
  = (Ret tt, mkWorld Demo.client [] [call Demo.client GET (assistants_url Demo.client) None]).
Proof.
  destruct (delete_all_skips_page_without_more Demo.client 200
              (Samples.listing ["thread_1"] false) (JBool false) []
              eq_refl eq_refl)
    as (Hthreads & Hagents & _).
  split; [exact Hthreads|exact Hagents].
Defined.

(** Two pages: the items of the first are deleted, the item of the
    last, which says [has_more] false, is not. *)
Example delete_all_threads_two_pages :
  _delete_all_threads
    (start Demo.client
       [Samples.page ["thread_1"; "thread_2"] true;
        Response 200 None; Response 200 None;
        Samples.page ["thread_3"] false])
  = (Ret tt,
     mkWorld Demo.client []
       [call Demo.client GET (threads_url Demo.client) None;
        call Demo.client DELETE (thread_url Demo.client (JStr "thread_1")) None;
        call Demo.client DELETE (thread_url Demo.client (JStr "thread_2")) None;
        call Demo.client GET (threads_url Demo.client) None]).
Proof. reflexivity. Qed.

(** * Every way a run of [search] can go *)

Section SearchOutcomes.

Variable loaded : date.

Lemma repolls_snoc e n : repolls e n ++ [Sleep 1; e] = repolls e (S n).
Proof.
  induction n as [|n IH]; [reflexivity|].
  cbn [repolls app]. rewrite IH. reflexivity.
Qed.

Lemma forallb_snoc {A} (f : A -> bool) l x :
  forallb f (l ++ [x]) = forallb f l && f x.
Proof. rewrite forallb_app. simpl. rewrite andb_true_r. reflexivity. Qed.

(** The first poll and the loop when the replies that are not terminal
    are followed by no usable reply: nothing at all, or something that
    is not JSON. *)
Lemma bind_halted {A B} (m : M A) (f : A -> M B) w o w' :
  m w = (halted o, w') -> bind m f w = (halted o, w').
Proof. unfold bind. intros ->. destruct o; reflexivity. Qed.

Lemma status_run_unanswered {A} (K : json -> M A) tid rid c after t0 o :
  unanswered after = Some o ->
  (next <- _status_run tid rid ;; K next) (mkWorld c after t0)
  = (halted o, mkWorld c (tl after) (t0 ++ [poll_call c tid rid])).
Proof.
  intros Ho. unfold _status_run, _get, send, bind, get_self, emit, await. simpl.
  destruct after as [|[xs [xb|]|xw] rest]; simpl in *; try discriminate;
    injection Ho as <-; reflexivity.
Qed.

Lemma first_poll_then_loop_unanswered {B} (K : json -> M B) rr rid c tid pre after t0 o :
  thread_id c = tid ->
  subscript rr "id" = inr rid ->
  forallb nonterminal pre = true ->
  unanswered after = Some o ->
  (status_run_result <- _status_run tid rid ;;
   n <- remaining ;;
   bind (poll_loop (S n) rr status_run_result) K)
    (mkWorld c (pre ++ after) t0)
  = (halted o,
     mkWorld c (tl after)
       (t0 ++ poll_call c tid rid :: repolls (poll_call c tid rid) (length pre))).
Proof.
  intros Htid Hid Hpre Ho.
  destruct pre as [|p pre'] using rev_ind.
  - apply (status_run_unanswered _ tid rid c after t0 o Ho).
  - clear IHpre'. rewrite forallb_snoc in Hpre. apply andb_true_iff in Hpre.
    destruct Hpre as [Hpre Hp].
    destruct (nonterminal_inv _ Hp) as (pc & pb & ps & -> & Hps & Hpin & Hpinc).
    rewrite <- app_assoc. cbn [app].
    rewrite (first_poll_then_loop _ rr rid c tid pc pb _ pre' _ Htid Hid Hpre).
    apply bind_halted. cbn [poll_loop].
    rewrite (bind_ret _ _ _ _ _ (eval_inr _ _ _ Hps)). rewrite Hpin. cbn [negb].
    rewrite (bind_ret _ _ _ _ _ (eval_inr _ _ _ Hps)). rewrite Hpinc.
    unfold sleep at 1. rewrite (bind_ret _ _ _ _ _ (eq_refl : emit _ _ = (Ret tt, _))).
    rewrite (bind_ret _ _ _ _ _ (get_self_eq _)).
    rewrite (bind_ret _ _ _ _ _ (eval_inr _ _ _ Hid)).
    cbn [self]. rewrite Htid.
    rewrite (status_run_unanswered _ tid rid c after _ o Ho).
    rewrite length_app. cbn [length].
    rewrite Nat.add_1_r, <- repolls_snoc. cbn [trace].
    rewrite <- !app_assoc. reflexivity.
Qed.

(** [search] up to the loop standing at a reply with a JSON body. *)
Lemma search_at_json c query ra rt rm rr pre code lb rest a t mb rid :
  reply_field ra "id" = inr a ->
  reply_field rt "id" = inr t ->
  response_json rm = inr mb ->
  reply_field rr "id" = inr rid ->
  forallb nonterminal pre = true ->
  exists rrb,
    search loaded query
      (start c (ra :: rt :: rm :: rr :: pre ++ Response code (Some lb) :: rest))
    = (poll_loop (S (length rest)) rrb lb ;;;
       c' <- get_self ;;
       response_result <- _get_response (thread_id c') ;;
       eval (subscript response_result "data"))
        (mkWorld (after_init c a t) rest
           (prologue loaded c a t query
            ++ poll_call c t rid :: repolls (poll_call c t rid) (length pre))).
Proof.
  intros Ha Ht Hm Hr Hpre.
  destruct (search_prologue loaded c query _ _ _ _ _ _ _ _
              (pre ++ Response code (Some lb) :: rest) Ha Ht Hm Hr)
    as (rrb & Hid & ->).
  exists rrb.
  rewrite (first_poll_then_loop _ rrb rid (after_init c a t) t code lb _ pre _ eq_refl Hid Hpre).
  reflexivity.
Qed.

(** [search] when the replies that are not terminal are followed by
    nothing, or by something that is not JSON. *)
Lemma search_unanswered c query ra rt rm rr pre after a t mb rid o :
  reply_field ra "id" = inr a ->
  reply_field rt "id" = inr t ->
  response_json rm = inr mb ->
  reply_field rr "id" = inr rid ->
  forallb nonterminal pre = true ->
  unanswered after = Some o ->
  search loaded query (start c (ra :: rt :: rm :: rr :: pre ++ after))
  = (halted o,
     mkWorld (after_init c a t) (tl after)
       (prologue loaded c a t query
        ++ poll_call c t rid :: repolls (poll_call c t rid) (length pre))).
Proof.
  intros Ha Ht Hm Hr Hpre Ho.
  destruct (search_prologue loaded c query _ _ _ _ _ _ _ _ (pre ++ after) Ha Ht Hm Hr)
    as (rrb & Hid & ->).
  apply (first_poll_then_loop_unanswered _ rrb rid (after_init c a t) t pre after _ o
           eq_refl Hid Hpre Ho).
Qed.

Lemma prologue_no_sleep c a t query :
  count is_sleep (prologue loaded c a t query) = 0.
Proof. reflexivity. Qed.

Lemma eq_str_true v s : eq_str v s = true -> v = JStr s.
Proof.
  destruct v; simpl; try discriminate.
  intros H. apply String.eqb_eq in H. congruence.
Qed.

(** [search] on a reply that says [incomplete], with its details or
    without. *)
Lemma search_incomplete c query ra rt rm rr pre x rest a t mb rid :
  reply_field ra "id" = inr a ->
  reply_field rt "id" = inr t ->
  response_json rm = inr mb ->
  reply_field rr "id" = inr rid ->
  forallb nonterminal pre = true ->
  status_of x = inr (JStr "incomplete") ->
  search loaded query (start c (ra :: rt :: rm :: rr :: pre ++ x :: rest))
  = (Raise (incomplete_exception x),
     mkWorld (after_init c a t) rest
       (prologue loaded c a t query
        ++ poll_call c t rid :: repolls (poll_call c t rid) (length pre))).
Proof.
  intros Ha Ht Hm Hr Hpre Hs.
  destruct (reply_field_inv _ _ _ Hs) as (lc & lb & -> & Hs').
  destruct (search_at_json c query ra rt rm rr pre lc lb rest a t mb rid Ha Ht Hm Hr Hpre)
    as (rrb & ->).
  apply bind_raise. cbn [poll_loop].
  rewrite (bind_ret _ _ _ _ _ (eval_inr _ _ _ Hs')). cbn [in_strs existsb eq_str].
  change (negb _) with true. cbv iota.
  rewrite (bind_ret _ _ _ _ _ (eval_inr _ _ _ Hs')).
  change (eq_str (JStr "incomplete") "incomplete") with true. cbv iota.
  unfold incomplete_exception, reply_field. cbn [response_json].
  destruct (subscript lb "incomplete_details") as [e|d]; reflexivity.
Qed.

(** A poll reply without a readable status. *)
Lemma search_status_unreadable c query ra rt rm rr pre x rest a t mb rid e :
  reply_field ra "id" = inr a ->
  reply_field rt "id" = inr t ->
  response_json rm = inr mb ->
  reply_field rr "id" = inr rid ->
  forallb nonterminal pre = true ->
  status_of x = inl e ->
  search loaded query (start c (ra :: rt :: rm :: rr :: pre ++ x :: rest))
  = (Raise e,
     mkWorld (after_init c a t) rest
       (prologue loaded c a t query
        ++ poll_call c t rid :: repolls (poll_call c t rid) (length pre))).
Proof.
  intros Ha Ht Hm Hr Hpre Hs.
  destruct (response_json x) as [e'|lb] eqn:Ex.
  - assert (e' = e) as -> by (unfold status_of, reply_field in Hs; rewrite Ex in Hs; congruence).
    apply (search_unanswered c query ra rt rm rr pre (x :: rest) a t mb rid (Some e)
             Ha Ht Hm Hr Hpre).
    cbn. rewrite Ex. reflexivity.
  - destruct x as [lc [lb'|]|w]; cbn in Ex; try discriminate.
    injection Ex as ->.
    unfold status_of, reply_field in Hs. cbn [response_json] in Hs.
    destruct (search_at_json c query ra rt rm rr pre lc lb rest a t mb rid Ha Ht Hm Hr Hpre)
      as (rrb & ->).
    apply bind_raise. cbn [poll_loop].
    apply bind_raise. apply eval_inl. exact Hs.
Qed.

Lemma count_polls c a t rid query n :
  count is_poll (prologue loaded c a t query
                 ++ poll_call c t rid :: repolls (poll_call c t rid) n) = S n /\
  count is_sleep (prologue loaded c a t query
                  ++ poll_call c t rid :: repolls (poll_call c t rid) n) = n /\
  count is_fetch (prologue loaded c a t query
                  ++ poll_call c t rid :: repolls (poll_call c t rid) n) = 0.
Proof.
  assert (Hs : count is_sleep (repolls (poll_call c t rid) n) = n).
  { unfold count. induction n as [|n IH]; [reflexivity|]. cbn. rewrite IH. reflexivity. }
  split; [|split].
  - rewrite count_app, prologue_no_poll, count_cons.
    rewrite count_repolls_hit by reflexivity. reflexivity.
  - rewrite count_app, prologue_no_sleep, count_cons, Hs. reflexivity.
  - rewrite count_app, prologue_no_fetch, count_cons.
    rewrite count_repolls_miss by reflexivity. reflexivity.
Qed.

(** X1. The loop of [search] has no limit of attempts: as long as the
    polls are answered by statuses that are not terminal it sleeps one
    second and polls again, once more than there are answers. *)
Theorem search_polls_without_limit c query ra rt rm rr polls a t mb rid :
  reply_field ra "id" = inr a ->
  reply_field rt "id" = inr t ->
  response_json rm = inr mb ->
  reply_field rr "id" = inr rid ->
  forallb nonterminal polls = true ->
  exists final,
    search loaded query (start c (ra :: rt :: rm :: rr :: polls)) = (Pending, final) /\
    trace final
    = prologue loaded c a t query
      ++ poll_call c t rid :: repolls (poll_call c t rid) (length polls) /\
    count is_poll (trace final) = S (length polls) /\
    count is_sleep (trace final) = length polls /\
    count is_fetch (trace final) = 0.
Proof.
  intros Ha Ht Hm Hr Hpolls.
  pose proof (search_unanswered c query ra rt rm rr polls [] a t mb rid None
                Ha Ht Hm Hr Hpolls eq_refl) as H.
  rewrite app_nil_r in H. eexists. split; [exact H|]. cbn [trace].
  split; [reflexivity|]. apply count_polls.
Qed.

(** X2. A poll that is answered without a readable status (no response,
    a body that is not JSON, JSON without the key [status]) makes
    [search] raise that error at once: no further poll, no fetch. *)
Theorem search_raises_on_unreadable_status c query ra rt rm rr pre x rest a t mb rid e :
  reply_field ra "id" = inr a ->
  reply_field rt "id" = inr t ->
  response_json rm = inr mb ->
  reply_field rr "id" = inr rid ->
  forallb nonterminal pre = true ->
  status_of x = inl e ->
  exists final,
    search loaded query (start c (ra :: rt :: rm :: rr :: pre ++ x :: rest))
    = (Raise e, final) /\
    replies final = rest /\
    count is_poll (trace final) = S (length pre) /\
    count is_fetch (trace final) = 0.
Proof.
  intros Ha Ht Hm Hr Hpre Hs. eexists. split.
  - apply (search_status_unreadable c query ra rt rm rr pre x rest a t mb rid e); assumption.
  - cbn [replies trace]. split; [reflexivity|].
    destruct (count_polls c a t rid query (length pre)) as (Hp & _ & Hf). auto.
Qed.

(** X3. A poll answered [incomplete] without the key
    [incomplete_details] makes [search] raise the [KeyError] of that
    lookup, not the exception that reports the incomplete run. *)
Theorem search_incomplete_without_details c query ra rt rm rr pre x rest a t mb rid e :
  reply_field ra "id" = inr a ->
  reply_field rt "id" = inr t ->
  response_json rm = inr mb ->
  reply_field rr "id" = inr rid ->
  forallb nonterminal pre = true ->
  status_of x = inr (JStr "incomplete") ->
  reply_field x "incomplete_details" = inl e ->
  exists final,
    search loaded query (start c (ra :: rt :: rm :: rr :: pre ++ x :: rest))
    = (Raise (KeyError "incomplete_details"), final) /\
    count is_fetch (trace final) = 0.
Proof.
  intros Ha Ht Hm Hr Hpre Hs Hd.
  pose proof (search_incomplete c query ra rt rm rr pre x rest a t mb rid
                Ha Ht Hm Hr Hpre Hs) as H.
  unfold incomplete_exception in H. rewrite Hd in H.
  destruct (reply_field_inv _ _ _ Hs) as (lc & lb & -> & Hs').
  assert (e = KeyError "incomplete_details") as ->.
  { unfold reply_field in Hd. cbn [response_json] in Hd. unfold subscript in Hd, Hs'.
    destruct lb; try discriminate.
    destruct (lookup "incomplete_details" items); congruence. }
  eexists. split; [exact H|]. apply count_polls.
Qed.

Lemma first_failure {A} (f : A -> bool) (l : list A) :
  forallb f l = true \/
  exists pre x rest, l = pre ++ x :: rest /\ forallb f pre = true /\ f x = false.
Proof.
  induction l as [|y l IH]; [left; reflexivity|].
  destruct (f y) eqn:Ey.
  - destruct IH as [IH|(pre & x & rest & -> & Hpre & Hx)].
    + left. simpl. rewrite Ey, IH. reflexivity.
    + right. exists (y :: pre), x, rest. simpl. rewrite Ey, Hpre. auto.
  - right. exists [], y, l. auto.
Qed.

(** X4. Whatever the polls are answered, [search] fetches the messages
    only after a poll was answered [completed] or [failed], with
    nothing but statuses that are not terminal before it. *)
Theorem search_fetches_only_after_terminal c query ra rt rm rr polls a t mb rid :
  reply_field ra "id" = inr a ->
  reply_field rt "id" = inr t ->
  response_json rm = inr mb ->
  reply_field rr "id" = inr rid ->
  0 < count is_fetch
        (trace (snd (search loaded query (start c (ra :: rt :: rm :: rr :: polls))))) ->
  exists pre last rest s,
    polls = pre ++ last :: rest /\
    forallb nonterminal pre = true /\
    status_of last = inr s /\
    in_strs s ["completed"; "failed"] = true.
Proof.
  intros Ha Ht Hm Hr Hfetch.
  destruct (first_failure nonterminal polls) as [Hall|(pre & x & rest & -> & Hpre & Hx)].
  - pose proof (search_unanswered c query ra rt rm rr polls [] a t mb rid None
                  Ha Ht Hm Hr Hall eq_refl) as H.
    rewrite app_nil_r in H. rewrite H in Hfetch. cbn [snd trace] in Hfetch.
    destruct (count_polls c a t rid query (length polls)) as (_ & _ & Hf). lia.
  - destruct (status_of x) as [e|s] eqn:Es.
    + rewrite (search_status_unreadable c query ra rt rm rr pre x rest a t mb rid e
                 Ha Ht Hm Hr Hpre Es) in Hfetch.
      cbn [snd trace] in Hfetch.
      destruct (count_polls c a t rid query (length pre)) as (_ & _ & Hf). lia.
    + destruct (in_strs s ["completed"; "failed"]) eqn:Ein.
      * exists pre, x, rest, s. auto.
      * unfold nonterminal in Hx. rewrite Es in Hx. apply negb_false_iff in Hx.
        simpl in Hx, Ein. apply orb_false_elim in Ein. destruct Ein as [E1 E2].
        rewrite E1 in Hx. apply orb_false_elim in E2. destruct E2 as [E2 _].
        rewrite E2 in Hx. simpl in Hx. rewrite orb_false_r in Hx.
        apply eq_str_true in Hx. subst s.
        rewrite (search_incomplete c query ra rt rm rr pre x rest a t mb rid
                   Ha Ht Hm Hr Hpre Es) in Hfetch.
        cbn [snd trace] in Hfetch.
        destruct (count_polls c a t rid query (length pre)) as (_ & _ & Hf). lia.
Qed.

(** X5. When the message cannot be posted, [search] raises that error
    with the two identifiers already stored: no run is started, nothing
    is polled, and no [DELETE] is sent for the agent and the thread. *)
Theorem search_stops_when_message_fails c query ra rt rm rest a t e :
  reply_field ra "id" = inr a ->
  reply_field rt "id" = inr t ->
  response_json rm = inl e ->
  search loaded query (start c (ra :: rt :: rm :: rest))
  = (Raise e, mkWorld (after_init c a t) rest (before_run loaded c t query)) /\
  count is_delete (before_run loaded c t query) = 0.
Proof.
  intros Ha Ht Hm. split; [|reflexivity].
  destruct (reply_field_inv _ _ _ Ha) as (sa & ba & -> & Ha').
  destruct (reply_field_inv _ _ _ Ht) as (st & bt & -> & Ht').
  unfold search, start.
  rewrite (bind_ret _ _ _ _ _ (init_agent_threads_ok loaded c _ _ _ _ _ _ _ _ Ha' Ht')).
  rewrite (bind_ret _ _ _ _ _ (get_self_eq _)). cbn [self].
  apply bind_raise.
  unfold _ask_to_thread, _post, send, bind, get_self, emit, await. simpl.
  destruct rm as [sm [bm|]|wm]; simpl in *; try discriminate;
    injection Hm as <-; reflexivity.
Qed.

(** X6. When the answer to the run request carries no identifier,
    [search] raises that error before any poll, with the two
    identifiers stored and the message posted. *)
Theorem search_stops_when_run_has_no_id c query ra rt rm rr rest a t mb e :
  reply_field ra "id" = inr a ->
  reply_field rt "id" = inr t ->
  response_json rm = inr mb ->
  reply_field rr "id" = inl e ->
  search loaded query (start c (ra :: rt :: rm :: rr :: rest))
  = (Raise e, mkWorld (after_init c a t) rest (prologue loaded c a t query)) /\
  count is_poll (prologue loaded c a t query) = 0 /\
  count is_delete (prologue loaded c a t query) = 0.
Proof.
  intros Ha Ht Hm Hr. split; [|split; reflexivity].
  destruct (reply_field_inv _ _ _ Ha) as (sa & ba & -> & Ha').
  destruct (reply_field_inv _ _ _ Ht) as (st & bt & -> & Ht').
  destruct rm as [sm [bm|]|wm]; try discriminate.
  unfold search, start.
  rewrite (bind_ret _ _ _ _ _ (init_agent_threads_ok loaded c _ _ _ _ _ _ _ _ Ha' Ht')).
  rewrite (bind_ret _ _ _ _ _ (get_self_eq _)). cbn [self].
  unfold _ask_to_thread at 1.
  unfold get_self at 1, bind at 1 2. cbn [self].
  rewrite post_ok.
  unfold get_self at 1, bind at 1. cbn [self].
  unfold _runs at 1.
  unfold get_self at 1, bind at 1 2. cbn [self].
  unfold reply_field in Hr.
  destruct rr as [sr [br|]|wr]; cbn [response_json] in Hr.
  - rewrite post_ok.
    unfold get_self at 1, bind at 1. cbn [self].
    rewrite (bind_raise _ _ _ _ _ (eval_inl _ _ _ Hr)). reflexivity.
  - injection Hr as <-. reflexivity.
  - injection Hr as <-. reflexivity.
Qed.

Lemma get_response_ok c tid code body rest t0 :
  _get_response tid (mkWorld c (Response code (Some body) :: rest) t0)
  = (Ret body, mkWorld c rest (t0 ++ [fetch_call c tid])).
Proof. reflexivity. Qed.

(** X7. When the loop has ended on [completed] or [failed] and the
    answer to the fetch has no [data], [search] raises that error: the
    one fetch was made, nothing is returned. *)
Theorem search_raises_when_fetch_has_no_data
    c query ra rt rm rr pre last rf rest a t mb rid s e :
  reply_field ra "id" = inr a ->
  reply_field rt "id" = inr t ->
  response_json rm = inr mb ->
  reply_field rr "id" = inr rid ->
  forallb nonterminal pre = true ->
  status_of last = inr s ->
  in_strs s ["completed"; "failed"] = true ->
  reply_field rf "data" = inl e ->
  exists final,
    search loaded query (start c (ra :: rt :: rm :: rr :: pre ++ last :: rf :: rest))
    = (Raise e, final) /\
    replies final = rest /\
    count is_fetch (trace final) = 1.
Proof.
  intros Ha Ht Hm Hr Hpre Hs Hin Hdata.
  destruct (reply_field_inv _ _ _ Hs) as (lc & lb & -> & Hs').
  destruct (search_at_json c query ra rt rm rr pre lc lb (rf :: rest) a t mb rid
              Ha Ht Hm Hr Hpre) as (rrb & ->).
  rewrite (bind_ret _ _ _ _ _ (poll_loop_done _ _ _ _ _ Hs' Hin)).
  rewrite (bind_ret _ _ _ _ _ (get_self_eq _)). cbn [self].
  change (thread_id (after_init c a t)) with t.
  assert (Hfetch :
    (response_result <- _get_response t ;; eval (subscript response_result "data"))
      (mkWorld (after_init c a t) (rf :: rest)
         (prologue loaded c a t query
          ++ poll_call c t rid :: repolls (poll_call c t rid) (length pre)))
    = (Raise e,
       mkWorld (after_init c a t) rest
         ((prologue loaded c a t query
           ++ poll_call c t rid :: repolls (poll_call c t rid) (length pre))
          ++ [fetch_call c t]))).
  { unfold reply_field in Hdata.
    destruct rf as [fc [fb|]|fw]; cbn [response_json] in Hdata.
    - rewrite (bind_ret _ _ _ _ _ (get_response_ok _ _ _ _ _ _)).
      rewrite (eval_inl _ _ _ Hdata). reflexivity.
    - injection Hdata as <-. reflexivity.
    - injection Hdata as <-. reflexivity. }
  rewrite Hfetch. eexists. split; [reflexivity|]. split; [reflexivity|].
  cbn [trace]. rewrite count_app.
  destruct (count_polls c a t rid query (length pre)) as (_ & _ & Hf).
  rewrite Hf. reflexivity.
Qed.

End SearchOutcomes.

(** * Acquisition and teardown at their edges *)

Section Edges.

Variable loaded : date.

Lemma init_agent_threads_thread_failure_eq c ra rt rest a e :
  reply_field ra "id" = inr a ->
  reply_field rt "id" = inl e ->
  init_agent_threads loaded (start c (ra :: rt :: rest))
  = (Raise e,
     mkWorld (match response_json rt with
              | inr _ => with_agent_id c a
              | inl _ => c
              end)
       rest
       [call c POST (assistants_url c) (Some (Dumped (agent_body loaded c)));
        call c POST (threads_url c) (Some (Text ""))]).
Proof.
  intros Ha Ht.
  destruct (reply_field_inv _ _ _ Ha) as (sa & ba & -> & Ha').
  unfold reply_field in Ht.
  unfold init_agent_threads, gather_create, send, abandon, bind, get_self, put_self,
    emit, await, start.
  simpl.
  destruct rt as [st [bt|]|wt]; simpl in *.
  - rewrite Ha'. simpl. rewrite Ht. reflexivity.
  - injection Ht as <-. reflexivity.
  - injection Ht as <-. reflexivity.
Qed.

(** X8. When the agent creation is answered with an identifier and the
    thread creation is not, [init_agent_threads] raises the error of the
    thread.  If the thread reply was JSON without [id], the new agent
    identifier is already stored, beside the thread identifier the
    client held before; if there was no JSON at all, nothing is stored.
    Either way no [DELETE] is sent for the agent. *)
Theorem init_agent_threads_thread_failure c ra rt rest a e :
  reply_field ra "id" = inr a ->
  reply_field rt "id" = inl e ->
  init_agent_threads loaded (start c (ra :: rt :: rest))
  = (Raise e,
     mkWorld (match response_json rt with
              | inr _ => with_agent_id c a
              | inl _ => c
              end)
       rest
       [call c POST (assistants_url c) (Some (Dumped (agent_body loaded c)));
        call c POST (threads_url c) (Some (Text ""))]).
Proof. apply init_agent_threads_thread_failure_eq. Qed.

(** X9. When the agent deletion is answered 200 and the thread deletion
    fails, [delete_agent_threads] raises that failure and keeps both
    identifiers.  A second call then starts again with the agent: if
    the service refuses to delete it again, that call raises before it
    reaches the thread, which is not retried. *)
Theorem delete_agent_threads_never_retries_thread c b1 r2 r3 e2 e3 rest :
  truthy (agent_id c) = true ->
  truthy (thread_id c) = true ->
  deletion_failure r2 = Some e2 ->
  deletion_failure r3 = Some e3 ->
  exists once,
    delete_agent_threads (start c (Response 200 b1 :: r2 :: r3 :: rest))
    = (Raise e2, once) /\
    once = mkWorld c (r3 :: rest) [agent_delete c; thread_delete c] /\
    delete_agent_threads once
    = (Raise e3, mkWorld c rest [agent_delete c; thread_delete c; agent_delete c]).
Proof.
  intros Ha Ht H2 H3. eexists. split; [|split; [reflexivity|]].
  - unfold delete_agent_threads, _delete_agent, _delete_thread, _delete, send, bind,
      get_self, emit, await, start.
    simpl. rewrite Ha. simpl. rewrite Ht. simpl.
    destruct r2 as [s2 b2|w2]; simpl in *.
    + destruct (Z.eqb s2 200); simpl; [discriminate|].
      injection H2 as <-. reflexivity.
    + injection H2 as <-. reflexivity.
  - exact (delete_agent_threads_agent_fails c r3 e3 rest
             [agent_delete c; thread_delete c] Ha H3).
Qed.

(** X10. Teardown after a failed acquisition, on a client that held
    nothing before.  If the thread reply was JSON without [id], the
    agent identifier was stored and [delete_agent_threads] deletes the
    agent, and only it.  If the thread reply was no JSON, nothing was
    stored and [delete_agent_threads] sends nothing: the agent that was
    created stays on the service. *)
Theorem delete_agent_threads_after_failed_acquisition c ra rt b rest a e :
  agent_id c = JNull ->
  thread_id c = JNull ->
  reply_field ra "id" = inr a ->
  truthy a = true ->
  reply_field rt "id" = inl e ->
  delete_agent_threads
    (snd (init_agent_threads loaded (start c (ra :: rt :: Response 200 b :: rest))))
  = (Ret tt,
     match response_json rt with
     | inr _ =>
         mkWorld (with_agent_id c a) rest
           [call c POST (assistants_url c) (Some (Dumped (agent_body loaded c)));
            call c POST (threads_url c) (Some (Text ""));
            call c DELETE (assistant_url c a) None]
     | inl _ =>
         mkWorld c (Response 200 b :: rest)
           [call c POST (assistants_url c) (Some (Dumped (agent_body loaded c)));
            call c POST (threads_url c) (Some (Text ""))]
     end).
Proof.
  intros Hna Hnt Ha Hta Ht.
  rewrite (init_agent_threads_thread_failure_eq c ra rt _ a e Ha Ht). cbn [snd].
  unfold delete_agent_threads, _delete_agent, _delete_thread, _delete, send, bind,
    get_self, emit, await.
  destruct (response_json rt); simpl.
  - rewrite Hna. simpl. rewrite Hnt. reflexivity.
  - rewrite Hta. simpl. rewrite Hnt. reflexivity.
Qed.

End Edges.

(** * Bulk deletion over many pages *)

Section Pages.

Lemma item_ids_Forall2 items ids :
  item_ids items = inr ids ->
  Forall2 (fun it id => subscript it "id" = inr id) items ids.
Proof.
  revert ids. induction items as [|it items IH]; intros ids H; simpl in H.
  - injection H as <-. constructor.
  - destruct (subscript it "id") as [e|id] eqn:Eid; simpl in H; [discriminate|].
    destruct (item_ids items) as [e|ids'] eqn:Eids; simpl in H; [discriminate|].
    injection H as <-. constructor; auto.
Qed.

Lemma full_round_inv p :
  full_round p = true ->
  exists more data items,
    subscript (page_body p) "has_more" = inr more /\ truthy more = true /\
    subscript (page_body p) "data" = inr data /\ iter data = inr items /\
    Forall2 (fun it id => subscript it "id" = inr id) items (round_ids p) /\
    length (deleted p) = length (round_ids p).
Proof.
  unfold full_round, round_ids, listed_ids.
  destruct (subscript (page_body p) "has_more") as [e|more]; [discriminate|].
  destruct (subscript (page_body p) "data") as [e|data]; simpl; [discriminate|].
  destruct (iter data) as [e|items] eqn:Eit; simpl; [discriminate|].
  destruct (item_ids items) as [e|ids] eqn:Eids; [discriminate|].
  intros H. apply andb_true_iff in H. destruct H as [Hm Hl].
  apply Nat.eqb_eq in Hl.
  exists more, data, items.
  split; [reflexivity|]. split; [exact Hm|]. split; [reflexivity|].
  split; [exact Eit|]. split; [|exact Hl].
  apply item_ids_Forall2. exact Eids.
Qed.

(** Through a run of full pages, up to the page that follows them. *)
Lemma delete_all_loop_rounds url (url_of : GroundingWithBingSearch -> json -> fstring) c
    code next rest :
  forall pages p k t0,
    full_round p = true ->
    forallb full_round pages = true ->
    delete_all_loop (S (length pages) + k) url
      (fun id => c' <- get_self ;; _delete (url_of c' id)) (page_body p)
      (mkWorld c (map (Response 200) (deleted p)
                  ++ flat_map round_replies pages
                  ++ Response code (Some next) :: rest) t0)
    = delete_all_loop k url (fun id => c' <- get_self ;; _delete (url_of c' id)) next
        (mkWorld c rest (t0 ++ flat_map (round_events c url url_of) (p :: pages))).
Proof.
  induction pages as [|q pages IH]; intros p k t0 Hp Hpages.
  - destruct (full_round_inv p Hp) as (more & data & items & Hm & Ht & Hd & Hi & Hids & Hl).
    cbn [flat_map app length Nat.add].
    rewrite (delete_all_loop_full_page k url url_of _ _ _ _ _ _ code next rest c t0
               Hm Ht Hd Hi Hids Hl).
    rewrite app_nil_r. reflexivity.
  - simpl in Hpages. apply andb_true_iff in Hpages. destruct Hpages as [Hq Hpages].
    destruct (full_round_inv p Hp) as (more & data & items & Hm & Ht & Hd & Hi & Hids & Hl).
    cbn [flat_map length Nat.add]. unfold round_replies at 1.
    rewrite <- !app_assoc. cbn [app].
    rewrite (delete_all_loop_full_page _ url url_of _ _ _ _ _ _ (page_code q) (page_body q)
               _ c t0 Hm Ht Hd Hi Hids Hl).
    rewrite (IH q k _ Hq Hpages).
    cbn [flat_map]. unfold round_events at 3. rewrite <- !app_assoc. reflexivity.
Qed.

Lemma rounds_length pages : length pages <= length (flat_map round_replies pages).
Proof.
  induction pages as [|p pages IH]; simpl; [lia|].
  rewrite length_app. lia.
Qed.

(** The whole bulk deletion on full pages followed by a page that ends
    the loop. *)
Lemma delete_all_rounds url (url_of : GroundingWithBingSearch -> json -> fstring) c
    pages code final more rest :
  forallb full_round pages = true ->
  subscript final "has_more" = inr more ->
  truthy more = false ->
  (results <- _get url ;;
   n <- remaining ;;
   delete_all_loop (S n) url (fun id => c' <- get_self ;; _delete (url_of c' id)) results)
    (start c (flat_map round_replies pages ++ Response code (Some final) :: rest))
  = (Ret tt,
     mkWorld c rest
       (call c GET url None :: flat_map (round_events c url url_of) pages)).
Proof.
  intros Hpages Hm Hf. unfold start. destruct pages as [|p pages].
  - cbn [flat_map app].
    rewrite (bind_ret _ _ _ _ _ (get_ok _ _ _ _ _ _)).
    rewrite (bind_ret _ _ _ _ _ (remaining_eq _)).
    apply (delete_all_loop_last_page _ _ _ _ _ _ Hm Hf).
  - simpl in Hpages. apply andb_true_iff in Hpages. destruct Hpages as [Hp Hpages].
    cbn [flat_map]. unfold round_replies at 1. rewrite <- !app_assoc. cbn [app].
    rewrite (bind_ret _ _ _ _ _ (get_ok _ _ _ _ _ _)).
    rewrite (bind_ret _ _ _ _ _ (remaining_eq _)). cbn [replies].
    pose proof (rounds_length pages) as Hlen.
    match goal with
    | |- delete_all_loop (S ?n) _ _ _ _ = _ =>
        replace (S n) with (S (length pages) + S (n - S (length pages)))
          by (repeat rewrite length_app; cbn [length]; lia)
    end.
    rewrite (delete_all_loop_rounds url url_of c code final rest pages p _ _ Hp Hpages).
    apply (delete_all_loop_last_page _ _ _ _ _ _ Hm Hf).
Qed.

(** X11. On a listing of any number of pages that say [has_more], each
    followed by 200 answers to its deletions, and then a page that does
    not: [_delete_all_threads] and [_delete_all_agents] delete every
    item of every page that says [has_more], in the order listed, fetch
    the listing again after each page, and return at the page that does
    not say [has_more] without deleting its items. *)
Theorem delete_all_page_by_page c pages code final more rest :
  forallb full_round pages = true ->
  subscript final "has_more" = inr more ->
  truthy more = false ->
  _delete_all_threads
    (start c (flat_map round_replies pages ++ Response code (Some final) :: rest))
  = (Ret tt,
     mkWorld c rest
       (call c GET (threads_url c) None
        :: flat_map (round_events c (threads_url c) thread_url) pages)) /\
  _delete_all_agents
    (start c (flat_map round_replies pages ++ Response code (Some final) :: rest))
  = (Ret tt,
     mkWorld c rest
       (call c GET (assistants_url c) None
        :: flat_map (round_events c (assistants_url c) assistant_url) pages)).
Proof.
  intros Hpages Hm Hf. split.
  - unfold _delete_all_threads.
    rewrite (bind_ret _ _ _ _ _ (get_self_eq _)). cbn [self start].
    apply (delete_all_rounds (threads_url c) thread_url c pages code final more rest
             Hpages Hm Hf).
  - unfold _delete_all_agents.
    rewrite (bind_ret _ _ _ _ _ (get_self_eq _)). cbn [self start].
    apply (delete_all_rounds (assistants_url c) assistant_url c pages code final more rest
             Hpages Hm Hf).
Qed.


(** A full page whose deletions are answered and after which the
    listing is not answered any more. *)
Lemma delete_all_loop_round_unanswered fuel url
    (url_of : GroundingWithBingSearch -> json -> fstring) c p t0 :
  full_round p = true ->
  delete_all_loop (S fuel) url (fun id => c' <- get_self ;; _delete (url_of c' id))
    (page_body p) (mkWorld c (map (Response 200) (deleted p)) t0)
  = (Pending, mkWorld c [] (t0 ++ round_events c url url_of p)).
Proof.
  intros Hp.
  destruct (full_round_inv p Hp) as (more & data & items & Hm & Ht & Hd & Hi & Hids & Hl).
  cbn [delete_all_loop].
  rewrite (bind_ret _ _ _ _ _ (eval_inr _ _ _ Hm)). rewrite Ht.
  rewrite (bind_ret _ _ _ _ _ (eval_inr _ _ _ Hd)).
  rewrite (bind_ret _ _ _ _ _ (eval_inr _ _ _ Hi)).
  pose proof (for_each_deletes url_of c items (round_ids p) (deleted p) [] t0 Hids Hl) as Hfe.
  rewrite app_nil_r in Hfe.
  rewrite (bind_ret _ _ _ _ _ Hfe).
  rewrite (bind_ret _ _ _ _ _ (eval_inr _ _ _ Hm)). rewrite Ht. cbn [negb].
  unfold round_events. rewrite app_assoc. reflexivity.
Qed.

(** X12. The bulk deletion has no limit of rounds and no check of
    progress: as long as every page says [has_more] it deletes the
    items of the page and asks for the listing again, also when a page
    holds no item at all. *)
Theorem delete_all_goes_on_while_has_more c pages :
  forallb full_round pages = true ->
  _delete_all_threads (start c (flat_map round_replies pages))
  = (Pending,
     mkWorld c []
       (call c GET (threads_url c) None
        :: flat_map (round_events c (threads_url c) thread_url) pages)) /\
  count (addresses GET ["/threads?api-version="])
    (call c GET (threads_url c) None
     :: flat_map (round_events c (threads_url c) thread_url) pages)
  = S (length pages).
Proof.
  intros Hpages. split.
  - unfold _delete_all_threads.
    rewrite (bind_ret _ _ _ _ _ (get_self_eq _)). unfold start. cbn [self].
    destruct pages as [|p pages]; [reflexivity|].
    simpl in Hpages. apply andb_true_iff in Hpages. destruct Hpages as [Hp Hpages].
    cbn [flat_map]. unfold round_replies at 1. cbn [app].
    rewrite (bind_ret _ _ _ _ _ (get_ok _ _ _ _ _ _)).
    rewrite (bind_ret _ _ _ _ _ (remaining_eq _)). cbn [replies].
    destruct pages as [|q pages] using rev_ind.
    + cbn [flat_map]. rewrite !app_nil_r.
      exact (delete_all_loop_round_unanswered _ (threads_url c) thread_url c p
               ([] ++ [call c GET (threads_url c) None]) Hp).
    + clear IHpages. rewrite forallb_app in Hpages. apply andb_true_iff in Hpages.
      destruct Hpages as [Hpages Hq]. simpl in Hq. rewrite andb_true_r in Hq.
      rewrite flat_map_app. cbn [flat_map]. rewrite app_nil_r.
      change (round_replies q)
        with (Response (page_code q) (Some (page_body q)) :: map (Response 200) (deleted q)).
      pose proof (rounds_length pages) as Hlen.
      match goal with
      | |- delete_all_loop (S ?n) _ _ _ _ = _ =>
          replace (S n) with (S (length pages) + S (n - S (length pages)))
            by (repeat rewrite length_app; cbn [length]; lia)
      end.
      unfold _delete_thread.
      rewrite (delete_all_loop_rounds (threads_url c) thread_url c (page_code q) (page_body q)
                 (map (Response 200) (deleted q)) pages p _ _ Hp Hpages).
      rewrite (delete_all_loop_round_unanswered _ (threads_url c) thread_url c q _ Hq).
      rewrite flat_map_app. cbn [flat_map app]. rewrite app_nil_r, <- ?app_assoc.
      reflexivity.
  - clear Hpages. rewrite count_cons.
    assert (Hget : addresses GET ["/threads?api-version="]
                     (call c GET (threads_url c) None) = true) by reflexivity.
    rewrite Hget.
    induction pages as [|p pages IH]; [reflexivity|].
    cbn [flat_map length]. rewrite count_app. unfold round_events at 1.
    rewrite count_app.
    assert (count (addresses GET ["/threads?api-version="])
              (map (fun id => call c DELETE (thread_url c id) None) (round_ids p)) = 0) as ->.
    { induction (round_ids p) as [|i l IHl]; [reflexivity|]. cbn [map].
      rewrite count_cons. exact IHl. }
    change (count _ [call c GET (threads_url c) None]) with 1. lia.
Qed.


Lemma for_each_app {A} (body : A -> M unit) l1 l2 w :
  for_each (l1 ++ l2) body w = (for_each l1 body ;;; for_each l2 body) w.
Proof.
  revert w. induction l1 as [|x l1 IH]; intros w; cbn [app for_each].
  - reflexivity.
  - unfold bind. destruct (body x w) as [[[]|e|] w1]; try reflexivity.
    rewrite IH. reflexivity.
Qed.

(** The loop on a page that says [has_more] when one of the deletions
    is refused; the items after it are not looked at. *)
Lemma delete_all_loop_refused fuel url (url_of : GroundingWithBingSearch -> json -> fstring)
    c body more data items1 it items2 ids1 id bodies1 r e rest t0 :
  subscript body "has_more" = inr more ->
  truthy more = true ->
  subscript body "data" = inr data ->
  iter data = inr (items1 ++ it :: items2) ->
  item_ids items1 = inr ids1 ->
  subscript it "id" = inr id ->
  length bodies1 = length ids1 ->
  deletion_failure r = Some e ->
  delete_all_loop (S fuel) url (fun i => c' <- get_self ;; _delete (url_of c' i)) body
    (mkWorld c (map (Response 200) bodies1 ++ r :: rest) t0)
  = (Raise e,
     mkWorld c rest
       (t0 ++ map (fun i => call c DELETE (url_of c i) None) ids1
           ++ [call c DELETE (url_of c id) None])).
Proof.
  intros Hm Ht Hd Hi Hids Hit Hl Hr.
  pose proof (item_ids_Forall2 _ _ Hids) as H1.
  cbn [delete_all_loop].
  rewrite (bind_ret _ _ _ _ _ (eval_inr _ _ _ Hm)). rewrite Ht.
  rewrite (bind_ret _ _ _ _ _ (eval_inr _ _ _ Hd)).
  rewrite (bind_ret _ _ _ _ _ (eval_inr _ _ _ Hi)).
  apply bind_raise. rewrite for_each_app.
  rewrite (bind_ret _ _ _ _ _ (for_each_deletes url_of c items1 ids1 bodies1 _ t0 H1 Hl)).
  cbn [for_each]. apply bind_raise.
  rewrite (bind_ret _ _ _ _ _ (eval_inr _ _ _ Hit)).
  rewrite (bind_ret _ _ _ _ _ (get_self_eq _)). cbn [self].
  rewrite (delete_failed _ _ _ _ _ _ Hr). rewrite <- app_assoc. reflexivity.
Qed.

(** The whole bulk deletion on full pages followed by a page on which
    a deletion is refused. *)
Lemma delete_all_refused url (url_of : GroundingWithBingSearch -> json -> fstring) c
    pages code body more data items1 it items2 ids1 id bodies1 r e rest :
  forallb full_round pages = true ->
  subscript body "has_more" = inr more ->
  truthy more = true ->
  subscript body "data" = inr data ->
  iter data = inr (items1 ++ it :: items2) ->
  item_ids items1 = inr ids1 ->
  subscript it "id" = inr id ->
  length bodies1 = length ids1 ->
  deletion_failure r = Some e ->
  (results <- _get url ;;
   n <- remaining ;;
   delete_all_loop (S n) url (fun i => c' <- get_self ;; _delete (url_of c' i)) results)
    (start c (flat_map round_replies pages
              ++ Response code (Some body) :: map (Response 200) bodies1 ++ r :: rest))
  = (Raise e,
     mkWorld c rest
       (call c GET url None
        :: flat_map (round_events c url url_of) pages
        ++ map (fun i => call c DELETE (url_of c i) None) ids1
        ++ [call c DELETE (url_of c id) None])).
Proof.
  intros Hpages Hm Ht Hd Hi Hids Hit Hl Hr. unfold start.
  destruct pages as [|p pages].
  - cbn [flat_map app].
    rewrite (bind_ret _ _ _ _ _ (get_ok _ _ _ _ _ _)).
    rewrite (bind_ret _ _ _ _ _ (remaining_eq _)).
    exact (delete_all_loop_refused _ url url_of c body more data items1 it items2 ids1 id
             bodies1 r e rest ([] ++ [call c GET url None]) Hm Ht Hd Hi Hids Hit Hl Hr).
  - simpl in Hpages. apply andb_true_iff in Hpages. destruct Hpages as [Hp Hpages].
    cbn [flat_map]. unfold round_replies at 1. rewrite <- !app_assoc. cbn [app].
    rewrite (bind_ret _ _ _ _ _ (get_ok _ _ _ _ _ _)).
    rewrite (bind_ret _ _ _ _ _ (remaining_eq _)). cbn [replies].
    pose proof (rounds_length pages) as Hlen.
    match goal with
    | |- delete_all_loop (S ?n) _ _ _ _ = _ =>
        replace (S n) with (S (length pages) + S (n - S (length pages)))
          by (repeat rewrite length_app; cbn [length]; lia)
    end.
    rewrite (delete_all_loop_rounds url url_of c code body
               (map (Response 200) bodies1 ++ r :: rest) pages p _ _ Hp Hpages).
    rewrite (delete_all_loop_refused _ url url_of c body more data items1 it items2 ids1 id
               bodies1 r e rest _ Hm Ht Hd Hi Hids Hit Hl Hr).
    cbn [flat_map app]. rewrite <- !app_assoc. reflexivity.
Qed.

(** X13. The first deletion that the service refuses, on whatever page
    of the listing, ends the bulk deletion with that exception: the
    pages before were deleted item by item, the items before it on its
    page are deleted, the items after it are not looked at, and the
    listing is not fetched again. *)
Theorem delete_all_stops_at_refused_deletion
    c pages code body more data items1 it items2 ids1 id bodies1 r e rest :
  forallb full_round pages = true ->
  subscript body "has_more" = inr more ->
  truthy more = true ->
  subscript body "data" = inr data ->
  iter data = inr (items1 ++ it :: items2) ->
  item_ids items1 = inr ids1 ->
  subscript it "id" = inr id ->
  length bodies1 = length ids1 ->
  deletion_failure r = Some e ->
  _delete_all_threads
    (start c (flat_map round_replies pages
              ++ Response code (Some body) :: map (Response 200) bodies1 ++ r :: rest))
  = (Raise e,
     mkWorld c rest
       (call c GET (threads_url c) None
        :: flat_map (round_events c (threads_url c) thread_url) pages
        ++ map (fun i => call c DELETE (thread_url c i) None) ids1
        ++ [call c DELETE (thread_url c id) None])) /\
  _delete_all_agents
    (start c (flat_map round_replies pages
              ++ Response code (Some body) :: map (Response 200) bodies1 ++ r :: rest))
  = (Raise e,
     mkWorld c rest
       (call c GET (assistants_url c) None
        :: flat_map (round_events c (assistants_url c) assistant_url) pages
        ++ map (fun i => call c DELETE (assistant_url c i) None) ids1
        ++ [call c DELETE (assistant_url c id) None])).
Proof.
  intros Hpages Hm Ht Hd Hi Hids Hit Hl Hr. split.
  - unfold _delete_all_threads.
    rewrite (bind_ret _ _ _ _ _ (get_self_eq _)). cbn [self start].
    apply (delete_all_refused (threads_url c) thread_url c pages code body more data
             items1 it items2 ids1 id bodies1 r e rest Hpages Hm Ht Hd Hi Hids Hit Hl Hr).
  - unfold _delete_all_agents.
    rewrite (bind_ret _ _ _ _ _ (get_self_eq _)). cbn [self start].
    apply (delete_all_refused (assistants_url c) assistant_url c pages code body more data
             items1 it items2 ids1 id bodies1 r e rest Hpages Hm Ht Hd Hi Hids Hit Hl Hr).
Qed.

End Pages.

(** * The headers set by the constructor are the headers of every request *)

Section Headers.

Variable loaded : date.
Variable hs : list (string * string).

Lemma steady_bind {A B} (m : M A) (f : A -> M B) w :
  steady hs m w ->
  (forall a w1, m w = (Ret a, w1) -> headers (self w1) = hs -> steady hs (f a) w1) ->
  steady hs (bind m f) w.
Proof.
  unfold steady, bind. intros (Hh & added & Ht & Hr) Hf.
  destruct (m w) as [[a|e|] w1] eqn:E; cbn [fst snd] in *; eauto.
  destruct (Hf a w1 eq_refl Hh) as (Hh' & added' & Ht' & Hr').
  split; [exact Hh'|]. exists (added ++ added').
  rewrite Ht', Ht, app_assoc. split; [reflexivity|].
  apply Forall_app. auto.
Qed.

Lemma steady_still {A} (m : M A) w :
  snd (m w) = w -> headers (self w) = hs -> steady hs m w.
Proof.
  unfold steady. intros -> H. split; [exact H|].
  exists []. rewrite app_nil_r. auto.
Qed.

Lemma steady_eval {A} (r : exn + A) w : headers (self w) = hs -> steady hs (eval r) w.
Proof. intros H. apply steady_still; [destruct r; reflexivity|exact H]. Qed.

Lemma steady_get_self w : headers (self w) = hs -> steady hs get_self w.
Proof. intros H. apply steady_still; [reflexivity|exact H]. Qed.

Lemma steady_remaining w : headers (self w) = hs -> steady hs remaining w.
Proof. intros H. apply steady_still; [reflexivity|exact H]. Qed.

Lemma steady_ret {A} (a : A) w : headers (self w) = hs -> steady hs (ret a) w.
Proof. intros H. apply steady_still; [reflexivity|exact H]. Qed.

Lemma steady_raise {A} e w : headers (self w) = hs -> steady hs (@raise A e) w.
Proof. intros H. apply steady_still; [reflexivity|exact H]. Qed.

Lemma steady_pending {A} w : headers (self w) = hs -> steady hs (@pending A) w.
Proof. intros H. apply steady_still; [reflexivity|exact H]. Qed.

Lemma steady_await w : headers (self w) = hs -> steady hs await w.
Proof.
  intros H. unfold steady, await. destruct (replies w); cbn [snd self trace].
  all: split; [exact H|]; exists []; rewrite app_nil_r; auto.
Qed.

Lemma steady_abandon w : headers (self w) = hs -> steady hs abandon w.
Proof.
  intros H. split; [exact H|]. exists []. cbn. rewrite app_nil_r. auto.
Qed.

Lemma steady_emit e w : headers (self w) = hs -> regular hs e -> steady hs (emit e) w.
Proof.
  intros H He. split; [exact H|]. exists [e]. split; [reflexivity|].
  constructor; [exact He|constructor].
Qed.

Lemma steady_put_self c w : headers c = hs -> steady hs (put_self c) w.
Proof.
  intros H. split; [exact H|]. exists []. cbn. rewrite app_nil_r. auto.
Qed.

Lemma get_self_inv w c w1 : get_self w = (Ret c, w1) -> c = self w /\ w1 = w.
Proof. unfold get_self. intros H. injection H as <- <-. auto. Qed.

Lemma steady_send m url data w : headers (self w) = hs -> steady hs (send m url data) w.
Proof.
  intros H. unfold send. apply steady_bind; [apply steady_get_self; exact H|].
  intros c w1 E H1. apply get_self_inv in E. destruct E as [-> ->].
  apply steady_emit; [exact H|exact H].
Qed.

Ltac steady_go :=
  repeat first
    [ assumption
    | apply steady_send | apply steady_await | apply steady_eval
    | apply steady_get_self | apply steady_remaining | apply steady_ret
    | apply steady_raise | apply steady_pending | apply steady_abandon
    | apply steady_bind; [|intros ? ? ? ?] ].

Lemma steady_post url data w : headers (self w) = hs -> steady hs (_post url data) w.
Proof. intros H. unfold _post. steady_go. Qed.

Lemma steady_get url w : headers (self w) = hs -> steady hs (_get url) w.
Proof. intros H. unfold _get. steady_go. Qed.

Lemma steady_delete url w : headers (self w) = hs -> steady hs (_delete url) w.
Proof.
  intros H. unfold _delete.
  apply steady_bind; [apply steady_send; exact H|]. intros [] w1 _ H1.
  apply steady_bind; [apply steady_await; exact H1|]. intros r w2 _ H2.
  destruct r as [status body|what]; [destruct (negb (Z.eqb status 200))|]; steady_go.
Qed.

Lemma steady_with_self {A} (f : GroundingWithBingSearch -> M A) w :
  headers (self w) = hs ->
  steady hs (f (self w)) w ->
  steady hs (c <- get_self ;; f c) w.
Proof.
  intros H Hf. apply steady_bind; [apply steady_get_self; exact H|].
  intros c w1 E _. apply get_self_inv in E. destruct E as [-> ->]. exact Hf.
Qed.

Lemma steady_status_run tid rid w :
  headers (self w) = hs -> steady hs (_status_run tid rid) w.
Proof.
  intros H. unfold _status_run. apply steady_with_self; [exact H|].
  apply steady_get. exact H.
Qed.

Lemma steady_sleep w : headers (self w) = hs -> steady hs (sleep 1) w.
Proof. intros H. apply steady_emit; [exact H|reflexivity]. Qed.

Lemma steady_poll_loop fuel rr cur w :
  headers (self w) = hs -> steady hs (poll_loop fuel rr cur) w.
Proof.
  revert cur w. induction fuel as [|fuel IH]; intros cur w H; cbn [poll_loop].
  - apply steady_pending. exact H.
  - apply steady_bind; [apply steady_eval; exact H|]. intros st w1 _ H1.
    destruct (negb (in_strs st ["completed"; "failed"])); [|apply steady_ret; exact H1].
    apply steady_bind; [apply steady_eval; exact H1|]. intros st' w2 _ H2.
    destruct (eq_str st' "incomplete").
    + apply steady_bind; [apply steady_eval; exact H2|]. intros d w3 _ H3.
      apply steady_raise. exact H3.
    + apply steady_bind; [apply steady_sleep; exact H2|]. intros [] w3 _ H3.
      apply steady_with_self; [exact H3|].
      apply steady_bind; [apply steady_eval; exact H3|]. intros rid w4 _ H4.
      apply steady_bind; [apply steady_status_run; exact H4|]. intros next w5 _ H5.
      apply IH. exact H5.
Qed.

Lemma steady_init_agent_threads w :
  headers (self w) = hs -> steady hs (init_agent_threads loaded) w.
Proof.
  intros H. unfold init_agent_threads, gather_create.
  apply steady_bind.
  { apply steady_with_self; [exact H|].
    apply steady_bind; [apply steady_eval; exact H|]. intros data w1 _ H1.
    apply steady_bind; [apply steady_send; exact H1|]. intros [] w2 _ H2.
    apply steady_bind; [apply steady_send; exact H2|]. intros [] w3 _ H3.
    apply steady_bind; [apply steady_await; exact H3|]. intros ra w4 _ H4.
    destruct (response_json ra).
    - apply steady_bind; [apply steady_abandon; exact H4|]. intros [] w5 _ H5.
      apply steady_raise. exact H5.
    - apply steady_bind; [apply steady_await; exact H4|]. intros rt w5 _ H5.
      apply steady_bind; [apply steady_eval; exact H5|]. intros t w6 _ H6.
      apply steady_ret. exact H6. }
  intros results w1 _ H1.
  apply steady_bind; [apply steady_eval; exact H1|]. intros a w2 _ H2.
  apply steady_with_self; [exact H2|].
  apply steady_bind; [apply steady_put_self; exact H2|]. intros [] w3 _ H3.
  apply steady_bind; [apply steady_eval; exact H3|]. intros t w4 _ H4.
  apply steady_with_self; [exact H4|].
  apply steady_put_self. exact H4.
Qed.

Lemma steady_search query w :
  headers (self w) = hs -> steady hs (search loaded query) w.
Proof.
  intros H. unfold search.
  apply steady_bind; [apply steady_init_agent_threads; exact H|]. intros [] w1 _ H1.
  apply steady_with_self; [exact H1|].
  apply steady_bind.
  { unfold _ask_to_thread. apply steady_with_self; [exact H1|]. apply steady_post. exact H1. }
  intros m w2 _ H2.
  apply steady_with_self; [exact H2|].
  apply steady_bind.
  { unfold _runs. apply steady_with_self; [exact H2|]. apply steady_post. exact H2. }
  intros rr w3 _ H3.
  apply steady_with_self; [exact H3|].
  apply steady_bind; [apply steady_eval; exact H3|]. intros rid w4 _ H4.
  apply steady_bind; [apply steady_status_run; exact H4|]. intros cur w5 _ H5.
  apply steady_bind; [apply steady_remaining; exact H5|]. intros n w6 _ H6.
  apply steady_bind; [apply steady_poll_loop; exact H6|]. intros last w7 _ H7.
  apply steady_with_self; [exact H7|].
  apply steady_bind.
  { unfold _get_response. apply steady_with_self; [exact H7|]. apply steady_get. exact H7. }
  intros resp w8 _ H8. apply steady_eval. exact H8.
Qed.

Lemma steady_delete_agent id w :
  headers (self w) = hs -> steady hs (_delete_agent id) w.
Proof.
  intros H. unfold _delete_agent. apply steady_with_self; [exact H|].
  apply steady_delete. exact H.
Qed.

Lemma steady_delete_thread id w :
  headers (self w) = hs -> steady hs (_delete_thread id) w.
Proof.
  intros H. unfold _delete_thread. apply steady_with_self; [exact H|].
  apply steady_delete. exact H.
Qed.

Lemma steady_delete_agent_threads w :
  headers (self w) = hs -> steady hs delete_agent_threads w.
Proof.
  intros H. unfold delete_agent_threads.
  apply steady_with_self; [exact H|].
  apply steady_bind.
  { destruct (truthy (agent_id (self w)));
      [apply steady_delete_agent|apply steady_ret]; exact H. }
  intros [] w1 _ H1. apply steady_with_self; [exact H1|].
  destruct (truthy (thread_id (self w1)));
    [apply steady_delete_thread|apply steady_ret]; exact H1.
Qed.

Lemma steady_for_each {A} (body : A -> M unit) :
  (forall a w, headers (self w) = hs -> steady hs (body a) w) ->
  forall items w, headers (self w) = hs -> steady hs (for_each items body) w.
Proof.
  intros Hb. induction items as [|a items IH]; intros w H; cbn [for_each].
  - apply steady_ret. exact H.
  - apply steady_bind; [apply Hb; exact H|]. intros [] w1 _ H1. apply IH. exact H1.
Qed.

Lemma steady_delete_all_loop fuel url delete_one results w :
  (forall id w', headers (self w') = hs -> steady hs (delete_one id) w') ->
  headers (self w) = hs ->
  steady hs (delete_all_loop fuel url delete_one results) w.
Proof.
  intros Hd. revert results w.
  induction fuel as [|fuel IH]; intros results w H; cbn [delete_all_loop].
  - apply steady_pending. exact H.
  - apply steady_bind; [apply steady_eval; exact H|]. intros more w1 _ H1.
    destruct (truthy more); [|apply steady_ret; exact H1].
    apply steady_bind; [apply steady_eval; exact H1|]. intros data w2 _ H2.
    apply steady_bind; [apply steady_eval; exact H2|]. intros items w3 _ H3.
    apply steady_bind.
    { apply steady_for_each; [|exact H3]. intros it w' H'.
      apply steady_bind; [apply steady_eval; exact H'|]. intros id w'' _ H''.
      apply Hd. exact H''. }
    intros [] w4 _ H4.
    apply steady_bind; [apply steady_eval; exact H4|]. intros more' w5 _ H5.
    destruct (negb (truthy more')); [apply steady_ret; exact H5|].
    apply steady_bind; [apply steady_get; exact H5|]. intros results' w6 _ H6.
    apply IH. exact H6.
Qed.

Lemma steady_delete_all w :
  headers (self w) = hs ->
  steady hs _delete_all_threads w /\ steady hs _delete_all_agents w.
Proof.
  intros H. split.
  - unfold _delete_all_threads. apply steady_with_self; [exact H|].
    apply steady_bind; [apply steady_get; exact H|]. intros results w1 _ H1.
    apply steady_bind; [apply steady_remaining; exact H1|]. intros n w2 _ H2.
    apply steady_delete_all_loop; [|exact H2]. intros id w'. apply steady_delete_thread.
  - unfold _delete_all_agents. apply steady_with_self; [exact H|].
    apply steady_bind; [apply steady_get; exact H|]. intros results w1 _ H1.
    apply steady_bind; [apply steady_remaining; exact H1|]. intros n w2 _ H2.
    apply steady_delete_all_loop; [|exact H2]. intros id w'. apply steady_delete_agent.
Qed.

End Headers.

(** X14. The bearer token is read once, by the constructor: whatever
    the service answers, every request that [search],
    [delete_agent_threads] and the bulk deletions send on a client
    carries the two headers the constructor has set, with the token the
    credential gave then, and each method leaves these headers in
    place for the next.  Every sleep of [search] is of one second. *)
Theorem requests_carry_the_token_of_the_constructor
    loaded endpoint credential api_version connection_id kwargs hs w :
  hs = [("Content-Type", "application/json");
        ("Authorization",
         ("Bearer " ++ credential "https://ai.azure.com/.default")%string)] ->
  headers (self w) = headers (__init__ endpoint credential api_version connection_id kwargs) ->
  (forall query, steady hs (search loaded query) w) /\
  steady hs delete_agent_threads w /\
  steady hs _delete_all_threads w /\
  steady hs _delete_all_agents w.
Proof.
  intros -> H. cbn in H.
  split; [intros query; apply steady_search; exact H|].
  split; [apply steady_delete_agent_threads; exact H|].
  apply steady_delete_all. exact H.
Qed.

(** * The plugin: search, yield, delete *)

Section PluginRuns.

Variable loaded : date.

(** X15. A call of the plugin that goes well, run to its end: the first
    step yields the [data] that [search] returns and has sent no
    [DELETE]; the second step deletes the agent and then the thread
    that this very call created, whatever the client held before; the
    one item is that [data]. *)
Theorem plugin_deletes_what_it_created
    c query ra rt rm rr pre last rf b1 b2 rest a t mb rid s data :
  reply_field ra "id" = inr a ->
  reply_field rt "id" = inr t ->
  response_json rm = inr mb ->
  reply_field rr "id" = inr rid ->
  forallb nonterminal pre = true ->
  status_of last = inr s ->
  in_strs s ["completed"; "failed"] = true ->
  reply_field rf "data" = inr data ->
  truthy a = true ->
  truthy t = true ->
  exists yielded,
    Plugin.bing_search loaded query Plugin.Created
      (start c (ra :: rt :: rm :: rr :: pre ++ last :: rf ::
                Response 200 b1 :: Response 200 b2 :: rest))
    = (Ret (Plugin.Item data, Plugin.Suspended), yielded) /\
    count is_delete (trace yielded) = 0 /\
    Plugin.bing_search loaded query Plugin.Suspended yielded
    = (Ret (Plugin.StopAsyncIteration, Plugin.Closed),
       mkWorld (after_init c a t) rest
         (trace yielded ++ [call c DELETE (assistant_url c a) None;
                            call c DELETE (thread_url c t) None])) /\
    Plugin.bing_search_items loaded query
      (start c (ra :: rt :: rm :: rr :: pre ++ last :: rf ::
                Response 200 b1 :: Response 200 b2 :: rest))
    = (Ret [data],
       mkWorld (after_init c a t) rest
         (trace yielded ++ [call c DELETE (assistant_url c a) None;
                            call c DELETE (thread_url c t) None])).
Proof.
  intros Ha Ht Hm Hr Hpre Hs Hin Hdata Hta Htt.
  pose proof (search_terminal loaded c query ra rt rm rr pre last rf
                (Response 200 b1 :: Response 200 b2 :: rest) a t mb rid s data
                Ha Ht Hm Hr Hpre Hs Hin Hdata) as Hsearch.
  pose proof (search_frame loaded c query
                (ra :: rt :: rm :: rr :: pre ++ last :: rf ::
                 Response 200 b1 :: Response 200 b2 :: rest)) as (_ & _ & Hdel).
  rewrite Hsearch in Hdel. cbn [snd trace] in Hdel.
  assert (Hfirst :
    Plugin.bing_search loaded query Plugin.Created
      (start c (ra :: rt :: rm :: rr :: pre ++ last :: rf ::
                Response 200 b1 :: Response 200 b2 :: rest))
    = (Ret (Plugin.Item data, Plugin.Suspended),
       mkWorld (after_init c a t) (Response 200 b1 :: Response 200 b2 :: rest)
         (prologue loaded c a t query
          ++ poll_call c t rid :: repolls (poll_call c t rid) (length pre)
          ++ [fetch_call c t]))).
  { cbn [Plugin.bing_search]. rewrite (bind_ret _ _ _ _ _ Hsearch). reflexivity. }
  assert (Hsecond :
    Plugin.bing_search loaded query Plugin.Suspended
      (mkWorld (after_init c a t) (Response 200 b1 :: Response 200 b2 :: rest)
         (prologue loaded c a t query
          ++ poll_call c t rid :: repolls (poll_call c t rid) (length pre)
          ++ [fetch_call c t]))
    = (Ret (Plugin.StopAsyncIteration, Plugin.Closed),
       mkWorld (after_init c a t) rest
         ((prologue loaded c a t query
           ++ poll_call c t rid :: repolls (poll_call c t rid) (length pre)
           ++ [fetch_call c t])
          ++ [call c DELETE (assistant_url c a) None;
              call c DELETE (thread_url c t) None]))).
  { cbn [Plugin.bing_search].
    rewrite (bind_ret _ _ _ _ _
               (delete_agent_threads_both (after_init c a t) b1 b2 rest _ Hta Htt)).
    reflexivity. }
  eexists. split; [exact Hfirst|]. split; [exact Hdel|]. split; [exact Hsecond|].
  unfold Plugin.bing_search_items. cbn [Plugin.async_for].
  rewrite (bind_ret _ _ _ _ _ Hfirst). cbn [fst snd].
  rewrite (bind_ret _ _ _ _ _ (bind_ret _ _ _ _ _ Hsecond)). reflexivity.
Qed.

(** Once both creations are answered with an identifier, the client
    ends a run of [search] with these two stored, however the run ends. *)
Lemma search_stores_identifiers c query ra rt rest a t :
  reply_field ra "id" = inr a ->
  reply_field rt "id" = inr t ->
  self (snd (search loaded query (start c (ra :: rt :: rest)))) = after_init c a t.
Proof.
  intros Ha Ht.
  destruct (reply_field_inv _ _ _ Ha) as (sa & ba & -> & Ha').
  destruct (reply_field_inv _ _ _ Ht) as (st & bt & -> & Ht').
  unfold search, start.
  rewrite (bind_ret _ _ _ _ _ (init_agent_threads_ok loaded c _ _ _ _ _ _ _ _ Ha' Ht')).
  match goal with
  | |- self (snd (_ ?w)) = _ =>
      change (self (snd (after_init_part query w)) = after_init c a t);
      destruct (quiet_search_after_init query w) as (Hq & _)
  end.
  exact Hq.
Qed.

(** X16. When [search] raises, the generator of the plugin raises the
    same exception and is never resumed: no [DELETE] is sent, and the
    agent and the thread that the call created stay on the service,
    their identifiers still stored in the client. *)
Theorem plugin_leaves_resources_when_search_raises c query ra rt rest a t e final :
  reply_field ra "id" = inr a ->
  reply_field rt "id" = inr t ->
  search loaded query (start c (ra :: rt :: rest)) = (Raise e, final) ->
  Plugin.bing_search_items loaded query (start c (ra :: rt :: rest)) = (Raise e, final) /\
  count is_delete (trace final) = 0 /\
  agent_id (self final) = a /\
  thread_id (self final) = t.
Proof.
  intros Ha Ht Hsearch.
  pose proof (search_frame loaded c query (ra :: rt :: rest)) as (_ & _ & Hdel).
  pose proof (search_stores_identifiers c query ra rt rest a t Ha Ht) as Hself.
  rewrite Hsearch in Hdel, Hself. cbn [snd] in Hdel, Hself.
  split; [|split; [exact Hdel|rewrite Hself; split; reflexivity]].
  unfold Plugin.bing_search_items. cbn [Plugin.async_for Plugin.bing_search].
  apply bind_raise. apply bind_raise. exact Hsearch.
Qed.

End PluginRuns.

(** * Setting the connection and writing the request out *)

Section Serialization.

(** The configuration that [serialize] writes for the first tool. *)
Lemma tool_configuration_serialize p t ts sc scs :
  Models.tools p = t :: ts ->
  Models.search_configurations (Models.bing_grounding t) = sc :: scs ->
  tool_configuration (Models.serialize p) = inr (Models.dump_SearchConfiguration sc).
Proof.
  intros Ht Hsc.
  unfold tool_configuration, Models.serialize, Models.dump_Tool, Models.dump_BingGrounding.
  rewrite Ht. cbn. rewrite Hsc. reflexivity.
Qed.

(** X17. Setting the connection on a request and writing the request
    out: the tool configuration of the written request has the given
    connection under [connection_id], every other key of it is written
    as before, and so are the keys of the request beside [tools].  The
    assignment fails, with [IndexError], only on a request without a
    tool or whose first tool has no configuration. *)
Theorem set_connection_id_written_out p cid p' :
  Models.set_connection_id p cid = inr p' ->
  and_then (tool_configuration (Models.serialize p'))
           (fun tc => subscript tc "connection_id")
  = inr (JStr cid) /\
  (forall k, k <> "connection_id" ->
     and_then (tool_configuration (Models.serialize p')) (fun tc => subscript tc k)
     = and_then (tool_configuration (Models.serialize p)) (fun tc => subscript tc k)) /\
  (forall k, k <> "tools" ->
     subscript (Models.serialize p') k = subscript (Models.serialize p) k) /\
  (forall q, Models.set_connection_id q cid = inl IndexError <->
     Models.tools q = [] \/
     exists t ts, Models.tools q = t :: ts /\
       Models.search_configurations (Models.bing_grounding t) = []).
Proof.
  intros H. unfold Models.set_connection_id in H.
  destruct (Models.tools p) as [|t ts] eqn:Ht; [discriminate|].
  destruct (Models.search_configurations (Models.bing_grounding t)) as [|sc scs] eqn:Hsc;
    [discriminate|].
  injection H as <-.
  rewrite (tool_configuration_serialize p t ts sc scs Ht Hsc).
  erewrite tool_configuration_serialize by reflexivity.
  split; [reflexivity|]. split; [|split].
  - intros k Hk. cbn [and_then]. unfold Models.dump_SearchConfiguration, subscript.
    cbn [Models.connection_id Models.count Models.market Models.set_lang Models.freshness].
    apply String.eqb_neq in Hk.
    destruct (Models.connection_id sc); cbn [app lookup]; rewrite Hk; reflexivity.
  - intros k Hk. unfold Models.serialize, subscript.
    cbn [Models.instructions Models.name Models.model Models.tools lookup].
    apply String.eqb_neq in Hk. rewrite !Hk.
    destruct (String.eqb k "instructions"); [reflexivity|].
    destruct (String.eqb k "name"); [reflexivity|].
    destruct (String.eqb k "model"); reflexivity.
  - intros q. unfold Models.set_connection_id. split.
    + destruct (Models.tools q) as [|t' ts']; [auto|].
      destruct (Models.search_configurations (Models.bing_grounding t')) eqn:E;
        [right; eauto|discriminate].
    + intros [->|(t' & ts' & -> & ->)]; reflexivity.
Qed.

End Serialization.

(** * [search] never looks at a status code *)

Section StatusCodes.

Variable loaded : date.

Lemma blind_bind {A B} (m : M A) (f : A -> M B) :
  blind m -> (forall a, blind (f a)) -> blind (bind m f).
Proof.
  intros Hm Hf w w' Hw. unfold bind. destruct (Hm w w' Hw) as [Hr Ha].
  destruct (m w) as [[a|e|] w1], (m w') as [[a'|e'|] w1'];
    cbn [fst snd] in *; try discriminate.
  - injection Hr as <-. apply Hf. exact Ha.
  - injection Hr as <-. split; [reflexivity|exact Ha].
  - split; [reflexivity|exact Ha].
Qed.

Lemma blind_pure {A} (m : M A) :
  (forall w, snd (m w) = w) -> (forall w w', alike w w' -> fst (m w) = fst (m w')) ->
  blind m.
Proof. intros Hs Hf w w' Hw. rewrite !Hs. split; [apply Hf|]; exact Hw. Qed.

Lemma blind_ret {A} (a : A) : blind (ret a).
Proof. apply blind_pure; reflexivity. Qed.

Lemma blind_raise {A} e : blind (@raise A e).
Proof. apply blind_pure; reflexivity. Qed.

Lemma blind_pending {A} : blind (@pending A).
Proof. apply blind_pure; reflexivity. Qed.

Lemma blind_eval {A} (r : exn + A) : blind (eval r).
Proof. apply blind_pure; destruct r; reflexivity. Qed.

Lemma blind_get_self : blind get_self.
Proof.
  apply blind_pure; [reflexivity|]. intros w w' (Hs & _). cbn. rewrite Hs. reflexivity.
Qed.

Lemma blind_remaining : blind remaining.
Proof.
  apply blind_pure; [reflexivity|]. intros w w' (_ & _ & Hr). cbn.
  rewrite (Forall2_length Hr). reflexivity.
Qed.

Lemma blind_emit e : blind (emit e).
Proof.
  intros w w' (Hs & Ht & Hr). split; [reflexivity|].
  cbn. unfold alike. cbn. rewrite Ht. auto.
Qed.

Lemma blind_put_self c : blind (put_self c).
Proof. intros w w' (Hs & Ht & Hr). split; [reflexivity|]. cbn. unfold alike. auto. Qed.

Lemma blind_abandon : blind abandon.
Proof.
  intros [c rs t] [c' rs' t'] (Hs & Ht & Hr). cbn in Hs, Ht, Hr. subst c' t'.
  split; [reflexivity|]. unfold abandon, alike. cbn.
  repeat split. destruct Hr; cbn; [constructor|assumption].
Qed.

Lemma same_body_json r r' : same_body r r' -> response_json r = response_json r'.
Proof.
  destruct r as [s [b|]|w], r' as [s' [b'|]|w']; cbn; intros H;
    try contradiction; try discriminate; congruence.
Qed.

(** Awaiting a reply and reading it with [response.json()] only. *)
Lemma blind_await_json {A} (K : exn + json -> M A) :
  (forall x, blind (K x)) ->
  blind (r <- await ;; K (response_json r)).
Proof.
  intros HK [c rs t] [c' rs' t'] (Hs & Ht & Hr). cbn in Hs, Ht, Hr. subst c' t'.
  unfold bind, await. cbn [replies self trace].
  destruct Hr as [|r r' rs rs' Hrr Hrs]; cbn [fst snd].
  - split; [reflexivity|]. repeat split. constructor.
  - rewrite (same_body_json r r' Hrr). apply HK. repeat split. exact Hrs.
Qed.

Lemma blind_send m url data : blind (send m url data).
Proof.
  unfold send. apply blind_bind; [apply blind_get_self|]. intros c. apply blind_emit.
Qed.

Lemma blind_post url data : blind (_post url data).
Proof.
  unfold _post. apply blind_bind; [apply blind_send|]. intros _.
  apply (blind_await_json (fun x => eval x)). intros x. apply blind_eval.
Qed.

Lemma blind_get url : blind (_get url).
Proof.
  unfold _get. apply blind_bind; [apply blind_send|]. intros _.
  apply (blind_await_json (fun x => eval x)). intros x. apply blind_eval.
Qed.

Lemma blind_status_run tid rid : blind (_status_run tid rid).
Proof.
  unfold _status_run. apply blind_bind; [apply blind_get_self|]. intros c. apply blind_get.
Qed.

Lemma blind_poll_loop fuel rr cur : blind (poll_loop fuel rr cur).
Proof.
  revert cur. induction fuel as [|fuel IH]; intros cur; cbn [poll_loop].
  - apply blind_pending.
  - apply blind_bind; [apply blind_eval|]. intros st.
    destruct (negb (in_strs st ["completed"; "failed"])); [|apply blind_ret].
    apply blind_bind; [apply blind_eval|]. intros st'.
    destruct (eq_str st' "incomplete").
    + apply blind_bind; [apply blind_eval|]. intros d. apply blind_raise.
    + apply blind_bind; [apply blind_emit|]. intros _.
      apply blind_bind; [apply blind_get_self|]. intros c.
      apply blind_bind; [apply blind_eval|]. intros rid.
      apply blind_bind; [apply blind_status_run|]. intros next. apply IH.
Qed.

Lemma blind_init_agent_threads : blind (init_agent_threads loaded).
Proof.
  unfold init_agent_threads, gather_create.
  apply blind_bind.
  { apply blind_bind; [apply blind_get_self|]. intros c.
    apply blind_bind; [apply blind_eval|]. intros data.
    apply blind_bind; [apply blind_send|]. intros _.
    apply blind_bind; [apply blind_send|]. intros _.
    apply (blind_await_json
             (fun x => match x with
                       | inl e => abandon ;;; raise e
                       | inr a => rt <- await ;; t <- eval (response_json rt) ;; ret (a, t)
                       end)).
    intros [e|a].
    - apply blind_bind; [apply blind_abandon|]. intros _. apply blind_raise.
    - apply (blind_await_json (fun x => t <- eval x ;; ret (a, t))). intros x.
      apply blind_bind; [apply blind_eval|]. intros t. apply blind_ret. }
  intros results.
  apply blind_bind; [apply blind_eval|]. intros a.
  apply blind_bind; [apply blind_get_self|]. intros c.
  apply blind_bind; [apply blind_put_self|]. intros _.
  apply blind_bind; [apply blind_eval|]. intros t.
  apply blind_bind; [apply blind_get_self|]. intros c'. apply blind_put_self.
Qed.

Lemma blind_search query : blind (search loaded query).
Proof.
  unfold search.
  apply blind_bind; [apply blind_init_agent_threads|]. intros _.
  apply blind_bind; [apply blind_get_self|]. intros c.
  apply blind_bind.
  { unfold _ask_to_thread. apply blind_bind; [apply blind_get_self|]. intros c0.
    apply blind_post. }
  intros _. apply blind_bind; [apply blind_get_self|]. intros c1.
  apply blind_bind.
  { unfold _runs. apply blind_bind; [apply blind_get_self|]. intros c0. apply blind_post. }
  intros rr. apply blind_bind; [apply blind_get_self|]. intros c2.
  apply blind_bind; [apply blind_eval|]. intros rid.
  apply blind_bind; [apply blind_status_run|]. intros cur.
  apply blind_bind; [apply blind_remaining|]. intros n.
  apply blind_bind; [apply blind_poll_loop|]. intros _.
  apply blind_bind; [apply blind_get_self|]. intros c3.
  apply blind_bind.
  { unfold _get_response. apply blind_bind; [apply blind_get_self|]. intros c0.
    apply blind_get. }
  intros resp. apply blind_eval.
Qed.

(** X18. [search] never looks at the status code of an answer: two
    scenarios whose answers have the same bodies, under whatever status
    codes, give the same result, the same requests and the same client.
    An answer 401 or 500 with a JSON body is read like an answer 200. *)
Theorem search_ignores_status_codes c query scenario scenario' :
  Forall2 same_body scenario scenario' ->
  fst (search loaded query (start c scenario))
  = fst (search loaded query (start c scenario')) /\
  trace (snd (search loaded query (start c scenario)))
  = trace (snd (search loaded query (start c scenario'))) /\
  self (snd (search loaded query (start c scenario)))
  = self (snd (search loaded query (start c scenario'))).
Proof.
  intros H.
  destruct (blind_search query (start c scenario) (start c scenario')) as (Hr & Hs & Ht & _).
  - unfold alike, start. cbn. auto.
  - auto.
Qed.

End StatusCodes.

(** * The further theorems at sample scenarios *)

Lemma search_polls_without_limit_witness :
  exists final,
    search Demo.today "news"
      (start Demo.client
         (Demo.opening ++ [Demo.run "queued"; Demo.run "in_progress"; Demo.run "queued"]))
    = (Pending, final) /\
    count is_poll (trace final) = 4 /\
    count is_sleep (trace final) = 3 /\
    count is_fetch (trace final) = 0.
Proof.
  destruct (search_polls_without_limit Demo.today Demo.client "news"
              (Demo.created "asst_1") (Demo.created "thread_1") (Demo.created "msg_1")
              (Demo.run "queued")
              [Demo.run "queued"; Demo.run "in_progress"; Demo.run "queued"]
              (JStr "asst_1") (JStr "thread_1") (JObj [("id", JStr "msg_1")]) (JStr "run_1")
              eq_refl eq_refl eq_refl eq_refl eq_refl)
    as (final & Hrun & _ & Hp & Hs & Hf).
  exists final. repeat split; assumption.
Defined.

Lemma search_raises_on_unreadable_status_witness :
  exists final,
    search Demo.today "news"
      (start Demo.client
         (Demo.opening ++ [Demo.run "queued"; Demo.created "run_1"; Demo.messages]))
    = (Raise (KeyError "status"), final) /\
    replies final = [Demo.messages] /\
    count is_poll (trace final) = 2 /\
    count is_fetch (trace final) = 0.
Proof.
  apply (search_raises_on_unreadable_status Demo.today Demo.client "news"
           (Demo.created "asst_1") (Demo.created "thread_1") (Demo.created "msg_1")
           (Demo.run "queued") [Demo.run "queued"] (Demo.created "run_1") [Demo.messages]
           (JStr "asst_1") (JStr "thread_1") (JObj [("id", JStr "msg_1")]) (JStr "run_1")
           (KeyError "status"));
    reflexivity.
Defined.

Lemma search_incomplete_without_details_witness :
  exists final,
    search Demo.today "news"
      (start Demo.client (Demo.opening ++ [Demo.run "incomplete"]))
    = (Raise (KeyError "incomplete_details"), final) /\
    count is_fetch (trace final) = 0.
Proof.
  apply (search_incomplete_without_details Demo.today Demo.client "news"
           (Demo.created "asst_1") (Demo.created "thread_1") (Demo.created "msg_1")
           (Demo.run "queued") [] (Demo.run "incomplete") []
           (JStr "asst_1") (JStr "thread_1") (JObj [("id", JStr "msg_1")]) (JStr "run_1")
           (KeyError "incomplete_details"));
    reflexivity.
Defined.

Lemma search_fetches_only_after_terminal_witness :
  exists pre last rest s,
    [Demo.run "queued"; Demo.run "completed"; Demo.messages] = pre ++ last :: rest /\
    forallb nonterminal pre = true /\
    status_of last = inr s /\
    in_strs s ["completed"; "failed"] = true.
Proof.
  apply (search_fetches_only_after_terminal Demo.today Demo.client "news"
           (Demo.created "asst_1") (Demo.created "thread_1") (Demo.created "msg_1")
           (Demo.run "queued") [Demo.run "queued"; Demo.run "completed"; Demo.messages]
           (JStr "asst_1") (JStr "thread_1") (JObj [("id", JStr "msg_1")]) (JStr "run_1"));
    try reflexivity.
  vm_compute. lia.
Defined.

Lemma search_stops_when_message_fails_witness :
  search Demo.today "news"
    (start Demo.client
       [Demo.created "asst_1"; Demo.created "thread_1"; NoResponse "connection reset"])
  = (Raise (ClientError "connection reset"),
     mkWorld (after_init Demo.client (JStr "asst_1") (JStr "thread_1")) []
       (before_run Demo.today Demo.client (JStr "thread_1") "news")).
Proof.
  apply (search_stops_when_message_fails Demo.today Demo.client "news"
           (Demo.created "asst_1") (Demo.created "thread_1")
           (NoResponse "connection reset") [] (JStr "asst_1") (JStr "thread_1")
           (ClientError "connection reset") eq_refl eq_refl eq_refl).
Defined.

Lemma search_stops_when_run_has_no_id_witness :
  search Demo.today "news"
    (start Demo.client
       [Demo.created "asst_1"; Demo.created "thread_1"; Demo.created "msg_1";
        Response 404 (Some (JObj [("error", JStr "no such assistant")]))])
  = (Raise (KeyError "id"),
     mkWorld (after_init Demo.client (JStr "asst_1") (JStr "thread_1")) []
       (prologue Demo.today Demo.client (JStr "asst_1") (JStr "thread_1") "news")).
Proof.
  apply (search_stops_when_run_has_no_id Demo.today Demo.client "news"
           (Demo.created "asst_1") (Demo.created "thread_1") (Demo.created "msg_1")
           (Response 404 (Some (JObj [("error", JStr "no such assistant")]))) []
           (JStr "asst_1") (JStr "thread_1") (JObj [("id", JStr "msg_1")])
           (KeyError "id") eq_refl eq_refl eq_refl eq_refl).
Defined.

Lemma search_raises_when_fetch_has_no_data_witness :
  exists final,
    search Demo.today "news"
      (start Demo.client
         (Demo.opening ++ [Demo.run "completed";
                           Response 500 (Some (JObj [("error", JStr "server_error")]))]))
    = (Raise (KeyError "data"), final) /\
    replies final = [] /\
    count is_fetch (trace final) = 1.
Proof.
  apply (search_raises_when_fetch_has_no_data Demo.today Demo.client "news"
           (Demo.created "asst_1") (Demo.created "thread_1") (Demo.created "msg_1")
           (Demo.run "queued") [] (Demo.run "completed")
           (Response 500 (Some (JObj [("error", JStr "server_error")]))) []
           (JStr "asst_1") (JStr "thread_1") (JObj [("id", JStr "msg_1")]) (JStr "run_1")
           (JStr "completed") (KeyError "data"));
    reflexivity.
Defined.

Lemma init_agent_threads_thread_failure_witness :
  init_agent_threads Demo.today
    (start Samples.holding
       [Demo.created "asst_2";
        Response 500 (Some (JObj [("error", JStr "server_error")]))])
  = (Raise (KeyError "id"),
     mkWorld (with_agent_id Samples.holding (JStr "asst_2")) []
       [call Samples.holding POST (assistants_url Samples.holding)
          (Some (Dumped (agent_body Demo.today Samples.holding)));
        call Samples.holding POST (threads_url Samples.holding) (Some (Text ""))]).
Proof.
  apply (init_agent_threads_thread_failure Demo.today Samples.holding
           (Demo.created "asst_2")
           (Response 500 (Some (JObj [("error", JStr "server_error")]))) []
           (JStr "asst_2") (KeyError "id") eq_refl eq_refl).
Defined.

Lemma delete_agent_threads_never_retries_thread_witness :
  exists once,
    delete_agent_threads
      (start Samples.holding [Response 200 None; Response 500 None; Response 404 None])
    = (Raise (Exception [Lit "Failed to delete: "; Val (JNum 500)]), once) /\
    once = mkWorld Samples.holding [Response 404 None]
             [agent_delete Samples.holding; thread_delete Samples.holding] /\
    delete_agent_threads once
    = (Raise (Exception [Lit "Failed to delete: "; Val (JNum 404)]),
       mkWorld Samples.holding []
         [agent_delete Samples.holding; thread_delete Samples.holding;
          agent_delete Samples.holding]).
Proof.
  apply (delete_agent_threads_never_retries_thread Samples.holding None
           (Response 500 None) (Response 404 None) _ _ []
           eq_refl eq_refl eq_refl eq_refl).
Defined.

Lemma delete_agent_threads_after_failed_acquisition_witness :
  delete_agent_threads
    (snd (init_agent_threads Demo.today
            (start Demo.client
               [Demo.created "asst_1"; NoResponse "timeout"; Response 200 None])))
  = (Ret tt,
     mkWorld Demo.client [Response 200 None]
       [call Demo.client POST (assistants_url Demo.client)
          (Some (Dumped (agent_body Demo.today Demo.client)));
        call Demo.client POST (threads_url Demo.client) (Some (Text ""))]).
Proof.
  apply (delete_agent_threads_after_failed_acquisition Demo.today Demo.client
           (Demo.created "asst_1") (NoResponse "timeout") None [] (JStr "asst_1")
           (ClientError "timeout") eq_refl eq_refl eq_refl eq_refl eq_refl).
Defined.

Lemma delete_all_page_by_page_witness :
  _delete_all_threads
    (start Demo.client
       [Samples.page ["thread_1"; "thread_2"] true; Response 200 None; Response 200 None;
        Samples.page [] true;
        Samples.page ["thread_3"] false])
  = (Ret tt,
     mkWorld Demo.client []
       [call Demo.client GET (threads_url Demo.client) None;
        call Demo.client DELETE (thread_url Demo.client (JStr "thread_1")) None;
        call Demo.client DELETE (thread_url Demo.client (JStr "thread_2")) None;
        call Demo.client GET (threads_url Demo.client) None;
        call Demo.client GET (threads_url Demo.client) None]).
Proof.
  apply (delete_all_page_by_page Demo.client
           [mkRound 200 (Samples.listing ["thread_1"; "thread_2"] true) [None; None];
            mkRound 200 (Samples.listing [] true) []]
           200 (Samples.listing ["thread_3"] false) (JBool false) []
           eq_refl eq_refl eq_refl).
Defined.

Lemma delete_all_goes_on_while_has_more_witness :
  _delete_all_threads
    (start Demo.client [Samples.page [] true; Samples.page [] true; Samples.page [] true])
  = (Pending,
     mkWorld Demo.client []
       [call Demo.client GET (threads_url Demo.client) None;
        call Demo.client GET (threads_url Demo.client) None;
        call Demo.client GET (threads_url Demo.client) None;
        call Demo.client GET (threads_url Demo.client) None]).
Proof.
  apply (delete_all_goes_on_while_has_more Demo.client
           [mkRound 200 (Samples.listing [] true) [];
            mkRound 200 (Samples.listing [] true) [];
            mkRound 200 (Samples.listing [] true) []]
           eq_refl).
Defined.

Lemma delete_all_stops_at_refused_deletion_witness :
  _delete_all_threads
    (start Demo.client
       [Samples.page ["thread_1"] true; Response 200 None;
        Demo.ok (JObj [("data", JArr [JObj [("id", JStr "thread_2")];
                                      JObj [("id", JStr "thread_3")];
                                      JObj [("object", JStr "thread")]]);
                       ("has_more", JBool true)]);
        Response 200 None; Response 500 None; Response 200 None])
  = (Raise (Exception [Lit "Failed to delete: "; Val (JNum 500)]),
     mkWorld Demo.client [Response 200 None]
       [call Demo.client GET (threads_url Demo.client) None;
        call Demo.client DELETE (thread_url Demo.client (JStr "thread_1")) None;
        call Demo.client GET (threads_url Demo.client) None;
        call Demo.client DELETE (thread_url Demo.client (JStr "thread_2")) None;
        call Demo.client DELETE (thread_url Demo.client (JStr "thread_3")) None]).
Proof.
  apply (delete_all_stops_at_refused_deletion Demo.client
           [mkRound 200 (Samples.listing ["thread_1"] true) [None]]
           200
           (JObj [("data", JArr [JObj [("id", JStr "thread_2")];
                                 JObj [("id", JStr "thread_3")];
                                 JObj [("object", JStr "thread")]]);
                  ("has_more", JBool true)])
           (JBool true)
           (JArr [JObj [("id", JStr "thread_2")];
                  JObj [("id", JStr "thread_3")];
                  JObj [("object", JStr "thread")]])
           [JObj [("id", JStr "thread_2")]] (JObj [("id", JStr "thread_3")])
           [JObj [("object", JStr "thread")]]
           [JStr "thread_2"] (JStr "thread_3") [None]
           (Response 500 None) _ [Response 200 None]
           eq_refl eq_refl eq_refl eq_refl eq_refl eq_refl eq_refl eq_refl eq_refl).
Defined.

Lemma requests_carry_the_token_of_the_constructor_witness :
  steady [("Content-Type", "application/json"); ("Authorization", "Bearer secret")]
    (search Demo.today "news")
    (start Samples.holding (Demo.opening ++ [Demo.run "completed"; Demo.messages])).
Proof.
  apply (requests_carry_the_token_of_the_constructor Demo.today
           "https://example.test/api/projects/demo" (fun _ => "secret")
           "2025-05-15-preview" "bing-connection" []
           [("Content-Type", "application/json"); ("Authorization", "Bearer secret")]
           (start Samples.holding (Demo.opening ++ [Demo.run "completed"; Demo.messages]))
           eq_refl eq_refl).
Defined.

Lemma plugin_deletes_what_it_created_witness :
  exists yielded,
    Plugin.bing_search Demo.today "news" Plugin.Created
      (start Samples.holding
         [Demo.created "asst_2"; Demo.created "thread_2"; Demo.created "msg_1";
          Demo.run "queued"; Demo.run "completed"; Demo.messages;
          Response 200 None; Response 200 None])
    = (Ret (Plugin.Item Demo.answer, Plugin.Suspended), yielded) /\
    count is_delete (trace yielded) = 0 /\
    Plugin.bing_search Demo.today "news" Plugin.Suspended yielded
    = (Ret (Plugin.StopAsyncIteration, Plugin.Closed),
       mkWorld (after_init Samples.holding (JStr "asst_2") (JStr "thread_2")) []
         (trace yielded
          ++ [call Samples.holding DELETE (assistant_url Samples.holding (JStr "asst_2")) None;
              call Samples.holding DELETE (thread_url Samples.holding (JStr "thread_2")) None]))
    /\
    Plugin.bing_search_items Demo.today "news"
      (start Samples.holding
         [Demo.created "asst_2"; Demo.created "thread_2"; Demo.created "msg_1";
          Demo.run "queued"; Demo.run "completed"; Demo.messages;
          Response 200 None; Response 200 None])
    = (Ret [Demo.answer],
       mkWorld (after_init Samples.holding (JStr "asst_2") (JStr "thread_2")) []
         (trace yielded
          ++ [call Samples.holding DELETE (assistant_url Samples.holding (JStr "asst_2")) None;
              call Samples.holding DELETE (thread_url Samples.holding (JStr "thread_2")) None])).
Proof.
  exact (plugin_deletes_what_it_created Demo.today Samples.holding "news"
           (Demo.created "asst_2") (Demo.created "thread_2") (Demo.created "msg_1")
           (Demo.run "queued") [] (Demo.run "completed") Demo.messages None None []
           (JStr "asst_2") (JStr "thread_2") (JObj [("id", JStr "msg_1")])
           (JStr "run_1") (JStr "completed") Demo.answer
           eq_refl eq_refl eq_refl eq_refl eq_refl eq_refl eq_refl eq_refl eq_refl eq_refl).
Defined.

Lemma plugin_leaves_resources_when_search_raises_witness :
  exists final,
    Plugin.bing_search_items Demo.today "news"
      (start Demo.client (Demo.opening ++ [Demo.incomplete_run]))
    = (Raise (Exception [Lit "Run is incomplete. details:";
                         Val (JObj [("reason", JStr "X")])]), final) /\
    count is_delete (trace final) = 0 /\
    agent_id (self final) = JStr "asst_1" /\
    thread_id (self final) = JStr "thread_1".
Proof.
  eexists.
  refine (plugin_leaves_resources_when_search_raises Demo.today Demo.client "news"
            (Demo.created "asst_1") (Demo.created "thread_1")
            [Demo.created "msg_1"; Demo.run "queued"; Demo.incomplete_run]
            (JStr "asst_1") (JStr "thread_1") _ _ eq_refl eq_refl _).
  vm_compute. reflexivity.
Defined.

Lemma set_connection_id_written_out_witness :
  and_then (tool_configuration
              (Models.serialize
                 {| Models.instructions := "You are a helpful agent.";
                    Models.name := "my-agent";
                    Models.model := "gpt-4o";
                    Models.tools :=
                      [{| Models.type := "bing_grounding";
                          Models.bing_grounding :=
                            {| Models.search_configurations :=
                                 [{| Models.connection_id := Some "bing-connection";
                                     Models.count := 7;
                                     Models.market := "en-US";
                                     Models.set_lang := "en";
                                     Models.freshness := "2025-01-07" |}] |} |}] |}))
           (fun tc => subscript tc "connection_id")
  = inr (JStr "bing-connection").
Proof.
  apply (set_connection_id_written_out (Models.new_CreateAgentRequest Demo.today)
           "bing-connection" _ eq_refl).
Defined.

Lemma search_ignores_status_codes_witness :
  fst (search Demo.today "news"
         (start Demo.client
            [Response 401 (Some (JObj [("error", JStr "unauthorized")]));
             Response 401 (Some (JObj [("error", JStr "unauthorized")]))]))
  = fst (search Demo.today "news"
           (start Demo.client
              [Response 200 (Some (JObj [("error", JStr "unauthorized")]));
               Response 200 (Some (JObj [("error", JStr "unauthorized")]))])).
Proof.
  apply (search_ignores_status_codes Demo.today Demo.client "news"
           [Response 401 (Some (JObj [("error", JStr "unauthorized")]));
            Response 401 (Some (JObj [("error", JStr "unauthorized")]))]
           [Response 200 (Some (JObj [("error", JStr "unauthorized")]));
            Response 200 (Some (JObj [("error", JStr "unauthorized")]))]).
  repeat constructor.
Defined.
